(** * Text-intersection add-on: a shallow embedding of [src.py]

    The add-on is orchestration code: it sequences calls into the host
    application ([bpy]) and does a little arithmetic on what the host
    reports.  The embedding keeps that shape.  A Python function becomes a
    value of the free monad [Prog] over the host interface [HostOp]; running
    a program against a host ([run]) gives the value returned or the
    exception raised, together with the chronological list of host calls.

    Conventions.
    - A Python [str] is the list of its code points ([pystr]); [len] is
      [length].
    - A Python [float] is an IEEE 754 binary64 number: Rocq's primitive
      [float], whose [+], [-], [*], [/] and decimal literals round as
      Python's do (to nearest, ties to even).  A Python [int] is a [Z] (or a
      [nat] for indices and lengths); where the source mixes the two in one
      tuple, the tuple holds [num]s.
    - [radians(90)] is kept symbolic ([Radians 90]).
    - Host handles (objects, modifiers, fonts) are opaque numbers chosen by
      the host. *)

From Stdlib Require Import String Ascii List ZArith NArith Bool Lia Floats.
Import ListNotations.

Set Implicit Arguments.
#[local] Set Warnings "-inexact-float".

(** ** Python values *)

Definition codepoint := N.
Definition pystr := list codepoint.

(** [len(s)]. *)
Definition len (s : pystr) : nat := List.length s.

(** A source literal (all literals of the add-on are ASCII). *)
Definition py (s : string) : pystr := map N_of_ascii (list_ascii_of_string s).

Inductive Exn : Set :=
| RuntimeError
| KeyError
| IndexError
| AttributeError
| ZeroDivisionError
| OtherError (code : N).

Definition Exn_eqb (a b : Exn) : bool :=
  match a, b with
  | RuntimeError, RuntimeError => true
  | KeyError, KeyError => true
  | IndexError, IndexError => true
  | AttributeError, AttributeError => true
  | ZeroDivisionError, ZeroDivisionError => true
  | OtherError m, OtherError n => N.eqb m n
  | _, _ => false
  end.

(** A number as the add-on hands it to the host: an [int] or a [float]. *)
Inductive num : Set :=
| Int (i : Z)
| Float (f : float).

Inductive Outcome (A : Type) : Type :=
| Returned (a : A)
| Raised (e : Exn).
Arguments Raised {A} e.

(** ** The host interface *)

Definition Obj := N.
Definition Modifier := N.
Definition Font := N.

Module Vec.
Record t : Set := mk { x : float; y : float; z : float }.
End Vec.

Inductive Angle : Set := Zero | Radians (degrees : Z).

Inductive SelectAction : Set := SELECT | DESELECT.
Inductive Mode : Set := OBJECT | EDIT.
Inductive ModifierType : Set := BOOLEAN | DECIMATE.
Inductive BoolOperation : Set := INTERSECT | UNION.
Inductive DecimateType : Set := DISSOLVE.
Inductive Target : Set := MESH.
Inductive Align : Set := WORLD.
Inductive AlignX : Set := CENTER.
Inductive Axis : Set := AxisY | AxisZ.
Inductive ReportType : Set := WARNING.

(** One constructor per kind of host access made by [src.py]: operator
    calls ([bpy.ops...]), reads and writes of attributes of host objects,
    and the two Python-level effects [print] and [self.report]. *)
Inductive HostOp : Set :=
| OpsObjectSelectAll (action : SelectAction)
| OpsObjectDelete
| OpsObjectTextAdd (enter_editmode : bool) (align : Align)
    (location : num * num * num) (scale : num * num * num)
    (rotation : Angle * Angle * Angle)
| OpsObjectConvert (target : Target)
| OpsObjectModifierApply (modifier : pystr)
| OpsObjectModeSet (mode : Mode)
| OpsObjectJoin
| OpsMeshPrimitiveCubeAdd (enter_editmode : bool) (align : Align)
    (location : num * num * num) (scale : num * num * num)
| OpsMeshSelectAll (action : SelectAction)
| OpsTransformResize (value : num * num * num)
| OpsExportMeshStl (check_existing : bool) (filepath : pystr) (filter_glob : pystr)
    (ascii : bool) (use_mesh_modifiers : bool) (axis_forward axis_up : Axis)
    (global_scale : float)
| ContextObject                                  (* bpy.context.object *)
| DataObjects (name : pystr)                     (* bpy.data.objects[name] *)
| DataFontsLoad (filepath : pystr)               (* bpy.data.fonts.load *)
| SetActive (o : Obj)                            (* view_layer.objects.active = o *)
| SetName (o : Obj) (name : pystr)               (* o.name = name *)
| SetLocation (o : Obj) (v : num * num * num)    (* o.location = v *)
| SetScale (o : Obj) (v : num * num * num)       (* o.scale = v *)
| GetDimensions (o : Obj)                        (* o.dimensions *)
| SetDataName (o : Obj) (name : pystr)           (* o.data.name = name *)
| SetDataBody (o : Obj) (body : pystr)
| SetDataAlignX (o : Obj) (a : AlignX)
| SetDataFont (o : Obj) (f : Font)
| SetDataSize (o : Obj) (size : Z)
| SetDataExtrude (o : Obj) (extrude : Z)
| SetDataUseAutoSmooth (o : Obj) (b : bool)
| SetPolygonSelect (o : Obj) (index : nat) (b : bool)   (* o.data.polygons[index].select = b *)
| ModifiersNew (o : Obj) (name : pystr) (type : ModifierType)
| SetModOperation (m : Modifier) (operation : BoolOperation)
| SetModUseSelf (m : Modifier) (b : bool)
| SetModObject (m : Modifier) (o : Obj)
| SetModDecimateType (m : Modifier) (t : DecimateType)
| PyPrint (v : float)
| Report (type : ReportType) (message : pystr).

(** What a host access evaluates to when it does not raise. *)
Definition resp (c : HostOp) : Set :=
  match c with
  | ContextObject => option Obj
  | DataObjects _ => Obj
  | DataFontsLoad _ => Font
  | GetDimensions _ => Vec.t
  | ModifiersNew _ _ _ => Modifier
  | _ => unit
  end.

Definition Trace := list HostOp.

(** A host answers an access, as a function of the accesses made so far,
    with a value or with an exception. *)
Definition Host := Trace -> forall c : HostOp, Exn + resp c.

(** ** Programs *)

Inductive Prog (A : Type) : Type :=
| Ret (a : A)
| Raise (e : Exn)
| Vis (c : HostOp) (k : Exn + resp c -> Prog A).
Arguments Raise {A} e.

Fixpoint bind {A B : Type} (m : Prog A) (f : A -> Prog B) : Prog B :=
  match m with
  | Ret a => f a
  | Raise e => Raise e
  | Vis c k => Vis c (fun r => bind (k r) f)
  end.

Declare Scope prog_scope.
Delimit Scope prog_scope with prog.
Bind Scope prog_scope with Prog.
Notation "x <- m ;; k" := (bind m (fun x => k))
  (at level 61, m at next level, right associativity) : prog_scope.
Notation "m ;; k" := (bind m (fun _ => k))
  (at level 61, right associativity) : prog_scope.
Local Open Scope prog_scope.

(** A host access: an exception raised by the host is raised in the
    program. *)
Definition call (c : HostOp) : Prog (resp c) :=
  Vis c (fun r => match r with inl e => Raise e | inr v => Ret v end).

(** [try: m except E: handler]. *)
Fixpoint try_except {A : Type} (m : Prog A) (E : Exn) (handler : Prog A) : Prog A :=
  match m with
  | Ret a => Ret a
  | Raise e => if Exn_eqb e E then handler else Raise e
  | Vis c k => Vis c (fun r => try_except (k r) E handler)
  end.

(** [for i in xs: body(i)]. *)
Fixpoint for_each {I : Type} (xs : list I) (body : I -> Prog unit) : Prog unit :=
  match xs with
  | [] => Ret tt
  | i :: rest => body i ;; for_each rest body
  end.

Definition range (n : nat) : list nat := seq 0 n.

Fixpoint run {A : Type} (h : Host) (p : Prog A) (tr : Trace) : Outcome A * Trace :=
  match p with
  | Ret a => (Returned a, tr)
  | Raise e => (Raised e, tr)
  | Vis c k => run h (k (h tr c)) (tr ++ [c])
  end.

(** ** Python operations used by the add-on *)

(** [s[i]] on a [str]. *)
Definition getitem (s : pystr) (i : nat) : Prog pystr :=
  match nth_error s i with
  | Some c => Ret [c]
  | None => Raise IndexError
  end.

(** The float of an [int] in arithmetic with a float, or in [/]: the float
    nearest to [i].  It is [i] itself below 2^53, as for the values of the
    [IntProperty] [max_size] (a C int) and the literals of the add-on, so
    that the quotient of two such ints is the quotient of their floats. *)
Definition float_of_int (i : Z) : float :=
  SF2Prim (binary_normalize prec emax i 0 false).

(** [a / b] on floats: a zero divisor ([0.0] or [-0.0]) raises, any other
    gives the rounded quotient. *)
Definition truediv (a b : float) : Prog float :=
  if (b =? 0)%float then Raise ZeroDivisionError else Ret (a / b)%float.

(** [min(a, b, c)]: the arguments are gone through in order, and one
    replaces the smallest so far when it is [<] it. *)
Definition min3 (a b c : float) : float :=
  let m := a in
  let m := if (b <? m)%float then b else m in
  if (c <? m)%float then c else m.

(** Attribute access on the result of [bpy.context.object], which may be
    [None]. *)
Definition attr (o : option Obj) : Prog Obj :=
  match o with
  | Some o => Ret o
  | None => Raise AttributeError
  end.

(** ** The add-on's functions *)

Definition clear_workspace : Prog unit :=
  call (OpsObjectSelectAll SELECT) ;;
  call OpsObjectDelete.

Definition create_text_object (txt : pystr) (extrude_size : Z) (name : pystr)
    (rotation_z : Angle) (centre_position : Z) (platform_height : float)
    (font : option Font) : Prog Obj :=
  call (OpsObjectTextAdd false WORLD
          (Int 0, Int centre_position, Float (platform_height - 0.02))
          (Int 2, Int 2, Int 2)
          (Radians 90, Zero, rotation_z)) ;;
  text_obj <- call ContextObject ;;
  text_obj <- attr text_obj ;;
  call (SetDataBody text_obj txt) ;;
  call (SetName text_obj name) ;;
  call (SetDataName text_obj (name ++ py " data")) ;;
  call (SetDataAlignX text_obj CENTER) ;;
  match font with
  | Some f => call (SetDataFont text_obj f)
  | None => Ret tt
  end ;;
  call (SetDataSize text_obj 3) ;;
  call (SetDataExtrude text_obj extrude_size) ;;
  call (OpsObjectConvert MESH) ;;
  Ret text_obj.

Definition create_intersection_object (fst_text : Obj) : Prog Obj :=
  o <- call (DataObjects (py "first text")) ;;
  call (SetActive o) ;;
  fst_intersect_mod <-
    call (ModifiersNew fst_text (py "Intersection on first object") BOOLEAN) ;;
  call (SetModOperation fst_intersect_mod INTERSECT) ;;
  call (SetModUseSelf fst_intersect_mod true) ;;
  o <- call (DataObjects (py "second text")) ;;
  call (SetModObject fst_intersect_mod o) ;;
  call (OpsObjectModifierApply (py "Intersection on first object")) ;;
  o <- call (DataObjects (py "second text")) ;;
  call (SetActive o) ;;
  call OpsObjectDelete ;;
  o <- call (DataObjects (py "first text")) ;;
  call (SetActive o) ;;
  intersect_mesh <- call ContextObject ;;
  intersect_mesh <- attr intersect_mesh ;;
  call (SetName intersect_mesh (py "final mesh")) ;;
  call (SetDataName intersect_mesh (py "final mesh data")) ;;
  call (SetDataUseAutoSmooth intersect_mesh true) ;;
  Ret intersect_mesh.

Definition add_platform (intersect_mesh : Obj) (centre_position : Z)
    (platform_height width depth : float) (is_top_platform : bool) : Prog unit :=
  let z_location := if is_top_platform then Float (1.98 + platform_height) else Int 0 in
  call (OpsMeshPrimitiveCubeAdd true WORLD
          (Int 0, Int centre_position, z_location)
          (Float (depth / 2 + 0.2), Float (width / 2 + 0.2), Float platform_height)) ;;
  platform_obj <- call ContextObject ;;
  platform_obj <- attr platform_obj ;;
  call (SetName platform_obj (py "platform")) ;;
  call (SetDataName platform_obj (py "platform data")) ;;
  call (OpsMeshSelectAll DESELECT) ;;
  call (OpsObjectModeSet OBJECT) ;;
  (if is_top_platform
   then call (SetPolygonSelect platform_obj 5 true)
   else call (SetPolygonSelect platform_obj 4 true)) ;;
  call (OpsObjectModeSet EDIT) ;;
  rx <- truediv (platform_height * 4) depth ;;
  ry <- truediv (platform_height * 4) width ;;
  call (OpsTransformResize (Float (1 + rx), Float (1 + ry), Int 1)) ;;
  call (OpsObjectModeSet OBJECT) ;;
  call (SetActive intersect_mesh) ;;
  union_mod <-
    call (ModifiersNew intersect_mesh (py "Union of intersect mesh and platform") BOOLEAN) ;;
  call (SetModOperation union_mod UNION) ;;
  call (SetModUseSelf union_mod true) ;;
  o <- call (DataObjects (py "platform")) ;;
  call (SetModObject union_mod o) ;;
  call (OpsObjectModifierApply (py "Union of intersect mesh and platform")) ;;
  o <- call (DataObjects (py "platform")) ;;
  call (SetActive o) ;;
  call OpsObjectDelete ;;
  call (SetActive intersect_mesh).

Definition finalize_mesh (max_size : float) : Prog unit :=
  call (OpsObjectSelectAll SELECT) ;;
  final_mesh <- call ContextObject ;;
  final_mesh <- attr final_mesh ;;
  decimate_mod <- call (ModifiersNew final_mesh (py "Decimate modifier") DECIMATE) ;;
  call (SetModDecimateType decimate_mod DISSOLVE) ;;
  call (OpsObjectModifierApply (py "Decimate modifier")) ;;
  final_obj <- call (DataObjects (py "final mesh")) ;;
  d <- call (GetDimensions final_obj) ;; call (PyPrint (Vec.x d)) ;;
  d <- call (GetDimensions final_obj) ;; call (PyPrint (Vec.y d)) ;;
  d <- call (GetDimensions final_obj) ;; call (PyPrint (Vec.z d)) ;;
  d <- call (GetDimensions final_obj) ;; sx <- truediv max_size (Vec.x d) ;;
  d <- call (GetDimensions final_obj) ;; sy <- truediv max_size (Vec.y d) ;;
  d <- call (GetDimensions final_obj) ;; sz <- truediv max_size (Vec.z d) ;;
  let scale := min3 sx sy sz in
  call (SetScale final_obj (Float scale, Float scale, Float scale)).

Definition export_to_stl (file : pystr) : Prog unit :=
  call (OpsObjectSelectAll SELECT) ;;
  call (OpsExportMeshStl true file (py "*.stl") false true AxisY AxisZ 1).

Definition single_mesh (fst snd : pystr) (with_platform : bool)
    (platform_height : float) (font : option Font) (centre_position : Z) : Prog unit :=
  fst_text <- create_text_object fst (Z.of_nat (len snd) * 2) (py "first text")
                Zero centre_position platform_height font ;;
  create_text_object snd (Z.of_nat (len fst) * 2) (py "second text")
                (Radians 90) centre_position platform_height font ;;
  intersect_mesh <- create_intersection_object fst_text ;;
  d <- call (GetDimensions intersect_mesh) ;;
  let width := Vec.z d in
  d <- call (GetDimensions intersect_mesh) ;;
  let depth := Vec.x d in
  add_platform intersect_mesh centre_position platform_height width depth false ;;
  if with_platform
  then add_platform intersect_mesh centre_position platform_height width depth true
  else Ret tt.

Definition mesh_by_letters (fst_word snd_word : pystr) (with_platform : bool)
    (platform_height : float) (font : option Font) : Prog unit :=
  let fst_length := len fst_word in
  for_each (range fst_length) (fun i =>
    a <- getitem fst_word i ;;
    b <- getitem snd_word i ;;
    single_mesh a b with_platform platform_height font
      (Z.of_nat i * 2 - Z.of_nat fst_length / 2 - 2)%Z).

Definition main (fst snd : pystr) (by_letters with_top_platform : bool)
    (platform_height : float) (font : option Font) : Prog unit :=
  clear_workspace ;;
  (if by_letters
   then mesh_by_letters fst snd with_top_platform platform_height font
   else single_mesh fst snd with_top_platform platform_height font 0) ;;
  call (OpsObjectSelectAll SELECT) ;;
  call OpsObjectJoin ;;
  o <- call ContextObject ;;
  o <- attr o ;;
  call (SetLocation o (Int 0, Int 0, Int 0)).

(** ** The two operators *)

Inductive OperatorResult : Set := CANCELLED | FINISHED.

(** [str.upper()]: the full uppercase mapping of each code point, in
    order. *)
Definition upper (to_upper_full : codepoint -> pystr) (s : pystr) : pystr :=
  flat_map to_upper_full s.

Module Model_mesh.
Record t : Set := mk {
  fst : pystr;
  snd : pystr;
  font_path : pystr;
  by_letters : bool;
  platform_height : float;
  with_top_platform : bool
}.

Definition length_warning : pystr :=
  py "Words have to have the same length in order to model them separately by letters.".

Definition font_warning : pystr :=
  py "Could not load wanted font. Chose default instead.".

Section Execute.
(** The interpreter's uppercase table (Unicode data, not part of the
    add-on): the full uppercase mapping of one code point. *)
Variable to_upper_full : codepoint -> pystr.

Definition execute (self : t) : Prog OperatorResult :=
  if by_letters self && negb (len (fst self) =? len (snd self))%nat
  then
    call (Report WARNING length_warning) ;;
    Ret CANCELLED
  else
    font <- try_except
              (f <- call (DataFontsLoad (font_path self)) ;; Ret (Some f))
              RuntimeError
              (call (Report WARNING font_warning) ;; Ret None) ;;
    main (upper to_upper_full (fst self)) (upper to_upper_full (snd self))
         (by_letters self) (with_top_platform self)
         (platform_height self / 10)%float font ;;
    Ret FINISHED.
End Execute.
End Model_mesh.

Module Export_model.
Record t : Set := mk {
  filename : pystr;
  max_size : Z
}.

Definition path_warning : pystr := py "Invalid directory path.".

Definition execute (self : t) : Prog OperatorResult :=
  if (len (filename self) =? 0)%nat
  then
    call (Report WARNING path_warning) ;;
    Ret CANCELLED
  else
    finalize_mesh (float_of_int (max_size self) / 100)%float ;;
    export_to_stl (filename self ++ py "\export.stl") ;;
    Ret FINISHED.
End Export_model.

(** * Vocabulary of the statements *)

(** ** Runs *)

(** What is done with the outcome of [m] when [m ;; Ret v] ends. *)
Definition and_return {A B : Type} (v : B) (r : Outcome A * Trace) : Outcome B * Trace :=
  match r with
  | (Returned _, tr) => (Returned v, tr)
  | (Raised e, tr) => (Raised e, tr)
  end.

(** What an observation [obs] of single host accesses sees of a trace. *)
Definition observe {K : Type} (obs : HostOp -> list K) (tr : Trace) : list K :=
  flat_map obs tr.

(** [emits obs p ks]: every run of [p] that returns adds exactly the
    observations [ks]. *)
Definition emits {K : Type} (obs : HostOp -> list K) {A : Type} (p : Prog A)
    (ks : list K) : Prop :=
  forall h tr a tr', run h p tr = (Returned a, tr') -> observe obs tr' = observe obs tr ++ ks.

(** ** Exceptions *)

(** [uncaught caught p]: in [p], an exception raised by a host access [c]
    ends the program with that exception, unless [caught c e]; exceptions
    raised by the program itself are leaves, hence final. *)
Inductive uncaught (caught : HostOp -> Exn -> bool) (A : Type) : Prog A -> Prop :=
| uncaught_Ret (a : A) : uncaught caught (Ret a)
| uncaught_Raise (e : Exn) : uncaught caught (Raise e)
| uncaught_Vis (c : HostOp) (k : Exn + resp c -> Prog A) :
    (forall e, caught c e = false -> k (inl e) = Raise e) ->
    (forall r, uncaught caught (k r)) ->
    uncaught caught (Vis c k).

Definition never (c : HostOp) (e : Exn) : bool := false.

(** The one handler of the add-on: [RuntimeError] (the class and its
    subclasses) raised by [bpy.data.fonts.load]. *)
Definition font_fallback (c : HostOp) (e : Exn) : bool :=
  match c, e with
  | DataFontsLoad _, RuntimeError => true
  | _, _ => false
  end.

(** The answer [None] to [bpy.context.object]. *)
Definition is_none (c : HostOp) : resp c -> Prop :=
  match c with
  | ContextObject => fun v => v = None
  | _ => fun _ => False
  end.

(** [none_fatal p]: wherever [p] reads [bpy.context.object], the answer
    [None] ends the program with AttributeError. *)
Inductive none_fatal (A : Type) : Prog A -> Prop :=
| none_fatal_Ret (a : A) : none_fatal (Ret a)
| none_fatal_Raise (e : Exn) : none_fatal (Raise e)
| none_fatal_Vis (c : HostOp) (k : Exn + resp c -> Prog A) :
    (forall v, is_none c v -> k (inr v) = Raise AttributeError) ->
    (forall r, none_fatal (k r)) ->
    none_fatal (Vis c k).

(** ** The two branches of [Model_mesh.execute] *)

(** The words fail the length check. *)
Definition rejected (self : Model_mesh.t) : bool :=
  Model_mesh.by_letters self
  && negb (len (Model_mesh.fst self) =? len (Model_mesh.snd self))%nat.

(** The [try] statement of [Model_mesh.execute]: the font loaded from
    [path], or [None] after a warning when loading raises [RuntimeError]. *)
Definition load_font (path : pystr) : Prog (option Font) :=
  try_except
    (f <- call (DataFontsLoad path) ;; Ret (Some f))
    RuntimeError
    (call (Report WARNING Model_mesh.font_warning) ;; Ret None).

(** The number of [single_mesh] runs in [main]. *)
Definition models (by_letters : bool) (fst : pystr) : nat :=
  if by_letters then len fst else 1%nat.

(** ** The stages of the pipeline *)

Fixpoint pystr_eqb (a b : pystr) : bool :=
  match a, b with
  | [], [] => true
  | x :: a', y :: b' => N.eqb x y && pystr_eqb a' b'
  | _, _ => false
  end.

Inductive Step : Set :=
| Text                             (* bpy.ops.object.text_add *)
| Mesh                             (* bpy.ops.object.convert(target='MESH') *)
| Boolean (op : BoolOperation)     (* a modifier's operation is set *)
| Decimate                         (* a DECIMATE modifier is created *)
| Apply (modifier : pystr)         (* bpy.ops.object.modifier_apply *)
| Scale                            (* the scale of an object is set *)
| Export.                          (* bpy.ops.export_mesh.stl *)

Definition step (c : HostOp) : list Step :=
  match c with
  | OpsObjectTextAdd _ _ _ _ _ => [Text]
  | OpsObjectConvert MESH => [Mesh]
  | SetModOperation _ op => [Boolean op]
  | ModifiersNew _ _ DECIMATE => [Decimate]
  | OpsObjectModifierApply m => [Apply m]
  | SetScale _ _ => [Scale]
  | OpsExportMeshStl _ _ _ _ _ _ _ _ => [Export]
  | _ => []
  end.

Definition intersection_name : pystr := py "Intersection on first object".
Definition union_name : pystr := py "Union of intersect mesh and platform".
Definition decimate_name : pystr := py "Decimate modifier".

(** The steps of one [single_mesh]: two texts made and converted, the
    intersection, the bottom platform, and the top platform when asked. *)
Definition build (with_platform : bool) : list Step :=
  [Text; Mesh; Text; Mesh;
   Boolean INTERSECT; Apply intersection_name;
   Boolean UNION; Apply union_name]
  ++ (if with_platform then [Boolean UNION; Apply union_name] else []).

(** The steps of [finalize_mesh] followed by [export_to_stl]. *)
Definition finish : list Step := [Decimate; Apply decimate_name; Scale; Export].

(** The position of a step in the order: text, intersect, union,
    decimate, scale, export.  A modifier applied is placed by its name,
    the three names being those under which [src.py] creates its
    INTERSECT, UNION and DECIMATE modifiers. *)
Definition stage (s : Step) : nat :=
  match s with
  | Text | Mesh => 0
  | Boolean INTERSECT => 1
  | Boolean UNION => 2
  | Decimate => 3
  | Apply m =>
      if pystr_eqb m intersection_name then 1
      else if pystr_eqb m union_name then 2
      else 3
  | Scale => 4
  | Export => 5
  end.

Fixpoint nondecreasing (l : list nat) : bool :=
  match l with
  | a :: (b :: _) as rest => (a <=? b)%nat && nondecreasing rest
  | _ => true
  end.

(** The steps go through the six stages in order: every stage occurs, and
    no step of an earlier stage follows a step of a later one. *)
Definition pipeline_order (ks : list Step) : bool :=
  nondecreasing (map stage ks)
  && forallb (fun n => existsb (Nat.eqb n) (map stage ks)) [0; 1; 2; 3; 4; 5]%nat.

(** ** Platforms, text bodies, exports *)

Inductive PlatformEvent : Set :=
| PlatformCube (z_location : num)  (* a cube is added at this height *)
| PlatformJoined.                  (* the union with the platform is applied *)

Definition platform (c : HostOp) : list PlatformEvent :=
  match c with
  | OpsMeshPrimitiveCubeAdd _ _ (_, _, z) _ => [PlatformCube z]
  | OpsObjectModifierApply m => if pystr_eqb m union_name then [PlatformJoined] else []
  | _ => []
  end.

Definition platforms (with_platform : bool) (platform_height : float) : list PlatformEvent :=
  [PlatformCube (Int 0); PlatformJoined]
  ++ (if with_platform
      then [PlatformCube (Float (1.98 + platform_height)); PlatformJoined]
      else []).

Definition text_body (c : HostOp) : list pystr :=
  match c with
  | SetDataBody _ txt => [txt]
  | _ => []
  end.

(** The scales assigned. *)
Definition scale_set (c : HostOp) : list (Obj * (num * num * num)) :=
  match c with
  | SetScale o v => [(o, v)]
  | _ => []
  end.

(** The STL exports of a trace. *)
Definition stl_exports (c : HostOp) : list HostOp :=
  match c with
  | OpsExportMeshStl _ _ _ _ _ _ _ _ => [c]
  | _ => []
  end.

(** ** Letter case *)

(** The uppercase form of an ASCII character: a..z become A..Z, any other
    character is unchanged. *)
Definition ascii_upper (c : codepoint) : codepoint :=
  if N.leb 97 c && N.leb c 122 then N.sub c 32 else c.

(** The word is made of ASCII characters. *)
Definition is_ascii (s : pystr) : Prop := Forall (fun c => (c < 128)%N) s.

(** The uppercase table is Unicode's on the ASCII characters. *)
Definition ascii_table (up : codepoint -> pystr) : Prop :=
  forall c, (c < 128)%N -> up c = [ascii_upper c].

(** Two characters are equal, or are the two cases of one of the letters
    A..Z. *)
Definition same_ascii_letter (a b : codepoint) : Prop :=
  a = b \/
  ((65 <= a <= 90)%N /\ b = (a + 32)%N) \/
  ((65 <= b <= 90)%N /\ a = (b + 32)%N).

(** Unicode's lowercase mapping on A..Z and on the Kelvin sign (U+212A),
    an uppercase letter whose lowercase form is k. *)
Definition kelvin_to_lower (c : codepoint) : codepoint :=
  if N.leb 65 c && N.leb c 90 then N.add c 32
  else if N.eqb c 8490 then 107%N
  else c.

(** ** Conditions on a host *)

(** The host raises nothing. *)
Definition calm (h : Host) : Prop := forall t c, exists v, h t c = inr v.

(** There is always an active object. *)
Definition has_active_object (h : Host) : Prop :=
  forall t, exists m, h t ContextObject = inr (Some m).

(** The object named "final mesh" is [o], and its dimensions are [d]. *)
Definition final_mesh_is (h : Host) (o : Obj) (d : Vec.t) : Prop :=
  (forall t, h t (DataObjects (py "final mesh")) = inr o) /\
  (forall t, h t (GetDimensions o) = inr d).

(** The three dimensions are positive. *)
Definition positive (d : Vec.t) : Prop :=
  (0 <? Vec.x d)%float = true /\ (0 <? Vec.y d)%float = true /\ (0 <? Vec.z d)%float = true.

(** ** Hosts and inputs used in examples *)

(** A host that never raises: there is always an active object, every
    object has dimensions [d], and the font loads. *)
Definition steady_host (d : Vec.t) : Host := fun _ c =>
  match c as c0 return Exn + resp c0 with
  | ContextObject => inr (Some 1%N)
  | DataObjects _ => inr 1%N
  | DataFontsLoad _ => inr 7%N
  | GetDimensions _ => inr d
  | ModifiersNew _ _ _ => inr 2%N
  | _ => inr tt
  end.

(** As [h], except that loading a font raises [e]. *)
Definition font_raises (e : Exn) (h : Host) : Host := fun tr c =>
  match c as c0 return Exn + resp c0 with
  | DataFontsLoad _ => inl e
  | c0 => h tr c0
  end.

(** As [h], except that there is no active object. *)
Definition without_active_object (h : Host) : Host := fun tr c =>
  match c as c0 return Exn + resp c0 with
  | ContextObject => inr None
  | c0 => h tr c0
  end.

Definition slab : Vec.t := Vec.mk 4 2 1.

(** The dimensions of a thin, tall mesh. *)
Definition needle : Vec.t := Vec.mk 0.5 0.5 5.5.

(** Unicode's full uppercase mapping on the Latin-1 code points (a..z,
    the micro sign, sharp s, the accented letters, y with diaeresis); the
    identity above them. *)
Definition latin1_to_upper_full (c : codepoint) : pystr :=
  if N.leb 97 c && N.leb c 122 then [N.sub c 32]
  else if N.eqb c 181 then [924%N]
  else if N.eqb c 223 then [83%N; 83%N]
  else if N.leb 224 c && N.leb c 254 && negb (N.eqb c 247) then [N.sub c 32]
  else if N.eqb c 255 then [376%N]
  else [c].

(** "ab" and "cd", by letters, no top platform. *)
Definition two_letters : Model_mesh.t :=
  Model_mesh.mk (py "ab") (py "cd") (py "C:\font.ttf") true 1 false.

(** "ab" and "cd" as whole words, with the top platform. *)
Definition whole_words : Model_mesh.t :=
  Model_mesh.mk (py "ab") (py "cd") (py "C:\font.ttf") false 1 true.

(** "ab" and "cd" as whole words, no top platform. *)
Definition no_top_platform : Model_mesh.t :=
  Model_mesh.mk (py "ab") (py "cd") (py "C:\font.ttf") false 1 false.

(** "abc" and "de", by letters. *)
Definition unequal_words : Model_mesh.t :=
  Model_mesh.mk (py "abc") (py "de") (py "C:\font.ttf") true 1 false.

(** "Fuss" written with a sharp s (code point 223) and "Rad", by letters. *)
Definition sharp_s_words : Model_mesh.t :=
  Model_mesh.mk [70; 117; 223]%N (py "Rad") (py "C:\font.ttf") true 1 false.

(** "k" and "a" as whole words; the same with the Kelvin sign for "k". *)
Definition small_k : Model_mesh.t :=
  Model_mesh.mk [107%N] (py "a") (py "C:\font.ttf") false 1 false.

Definition kelvin_sign : Model_mesh.t :=
  Model_mesh.mk [8490%N] (py "a") (py "C:\font.ttf") false 1 false.

Definition to_disk : Export_model.t := Export_model.mk (py "C:") 10.

(** ** Vocabulary of the further properties *)

(** [performs_only ok p]: every host access [p] can make is one that [ok]
    accepts, whatever the host answers. *)
Fixpoint performs_only (ok : HostOp -> bool) {A : Type} (p : Prog A) : Prop :=
  match p with
  | Ret _ => True
  | Raise _ => True
  | Vis c k => ok c = true /\ forall r, performs_only ok (k r)
  end.

(** [raises_only P p]: an exception that [p] raises by itself (not one
    passed on from a host access) satisfies [P]. *)
Fixpoint raises_only (P : Exn -> Prop) {A : Type} (p : Prog A) : Prop :=
  match p with
  | Ret _ => True
  | Raise e => P e
  | Vis c k =>
      (forall e, k (inl e) = Raise e \/ raises_only P (k (inl e))) /\
      (forall v, raises_only P (k (inr v)))
  end.

(** The accesses that belong to exporting: [finalize_mesh],
    [export_to_stl] and reports. *)
Definition finishing_op (c : HostOp) : bool :=
  match c with
  | OpsObjectSelectAll SELECT | ContextObject | ModifiersNew _ _ DECIMATE
  | SetModDecimateType _ _ | OpsObjectModifierApply _ | DataObjects _
  | GetDimensions _ | PyPrint _ | SetScale _ _
  | OpsExportMeshStl _ _ _ _ _ _ _ _ | Report _ _ => true
  | _ => false
  end.

(** The accesses that modelling never makes: the STL export, a change of
    scale, a DECIMATE modifier, [print]. *)
Definition modelling_op (c : HostOp) : bool :=
  match c with
  | OpsExportMeshStl _ _ _ _ _ _ _ _ | SetScale _ _ | ModifiersNew _ _ DECIMATE
  | SetModDecimateType _ _ | PyPrint _ => false
  | _ => true
  end.

(** The exceptions the add-on can raise by itself. *)
Definition no_object_or_zero (e : Exn) : Prop :=
  e = AttributeError \/ e = ZeroDivisionError.

Definition no_object_zero_or_index (e : Exn) : Prop :=
  e = AttributeError \/ e = ZeroDivisionError \/ e = IndexError.

(** The code point has a single code point as its uppercase form. *)
Definition single_upper (up : codepoint -> pystr) (c : codepoint) : Prop :=
  len (up c) = 1%nat.

(** Every object has dimensions [d]. *)
Definition dimensions_are (h : Host) (d : Vec.t) : Prop :=
  forall t o, h t (GetDimensions o) = inr d.

(** The float is not a zero ([0.0] or [-0.0]). *)
Definition nonzero (q : float) : Prop := (q =? 0)%float = false.

(** The fonts assigned to text objects. *)
Definition font_set (c : HostOp) : list Font :=
  match c with
  | SetDataFont _ f => [f]
  | _ => []
  end.

(** The fonts one [single_mesh] assigns: one per text object. *)
Definition fonts_of (font : option Font) : list Font :=
  match font with
  | Some f => [f; f]
  | None => []
  end.

(** The messages reported. *)
Definition reports (c : HostOp) : list pystr :=
  match c with
  | Report _ msg => [msg]
  | _ => []
  end.

(** The extrusion given to text objects. *)
Definition extrusion (c : HostOp) : list Z :=
  match c with
  | SetDataExtrude _ e => [e]
  | _ => []
  end.

(** Where objects are created. *)
Definition placement (c : HostOp) : list (num * num * num) :=
  match c with
  | OpsObjectTextAdd _ _ location _ _ => [location]
  | OpsMeshPrimitiveCubeAdd _ _ location _ => [location]
  | _ => []
  end.

(** The places of one [single_mesh]: the two texts, the bottom platform,
    and the top platform when asked. *)
Definition places (with_platform : bool) (platform_height : float) (centre_position : Z)
    : list (num * num * num) :=
  [(Int 0, Int centre_position, Float (platform_height - 0.02));
   (Int 0, Int centre_position, Float (platform_height - 0.02));
   (Int 0, Int centre_position, Int 0)]
  ++ (if with_platform
      then [(Int 0, Int centre_position, Float (1.98 + platform_height))]
      else []).

(** Dimensions with no depth, and with no height. *)
Definition depthless : Vec.t := Vec.mk 0 2 1.
Definition flat : Vec.t := Vec.mk 4 2 0.

(** * Reasoning about runs *)

(** ** Laws of [run] *)

Section RunLaws.
Variable h : Host.

Lemma run_bind (A B : Type) (m : Prog A) (f : A -> Prog B) (tr : Trace) :
  run h (bind m f) tr =
  match run h m tr with
  | (Returned a, tr') => run h (f a) tr'
  | (Raised e, tr') => (Raised e, tr')
  end.
Proof.
  revert tr. induction m as [a | e | c k IH]; intro tr; simpl; auto.
Qed.

Lemma run_call (c : HostOp) (tr : Trace) :
  run h (call c) tr =
  (match h tr c with inl e => Raised e | inr v => Returned v end, tr ++ [c]).
Proof. simpl. destruct (h tr c); reflexivity. Qed.

Lemma run_then_return (A B : Type) (m : Prog A) (v : B) (tr : Trace) :
  run h (m ;; Ret v) tr = and_return v (run h m tr).
Proof.
  rewrite run_bind. destruct (run h m tr) as [[a | e] t]; reflexivity.
Qed.

(** A run only ever appends to the trace. *)
Lemma run_extends (A : Type) (p : Prog A) :
  forall tr, exists ops, snd (run h p tr) = tr ++ ops.
Proof.
  induction p as [a | e | c k IH]; intro tr; simpl.
  - exists []. now rewrite app_nil_r.
  - exists []. now rewrite app_nil_r.
  - destruct (IH (h tr c) (tr ++ [c])) as [ops Hops].
    exists (c :: ops). rewrite Hops, <- app_assoc. reflexivity.
Qed.
End RunLaws.

Lemma app_same_length (X : Type) (l1 l2 r1 r2 : list X) :
  l1 ++ r1 = l2 ++ r2 -> List.length l1 = List.length l2 -> l1 = l2 /\ r1 = r2.
Proof.
  revert l2. induction l1 as [| a l1 IH]; intros [| b l2] H Hlen;
    simpl in *; try discriminate; auto.
  injection H as -> H. destruct (IH l2 H) as [-> ->]; auto.
Qed.

(** ** Observing a trace *)

Section Observations.
Variable K : Type.
Variable obs : HostOp -> list K.

Lemma observe_app (t1 t2 : Trace) : observe obs (t1 ++ t2) = observe obs t1 ++ observe obs t2.
Proof. apply flat_map_app. Qed.

Lemma emits_ret (A : Type) (a : A) : emits obs (Ret a) [].
Proof. intros h tr a' tr' H. injection H as _ <-. now rewrite app_nil_r. Qed.

Lemma emits_raise (A : Type) (e : Exn) (ks : list K) : emits obs (@Raise A e) ks.
Proof. intros h tr a tr' H. discriminate H. Qed.

Lemma emits_call (c : HostOp) : emits obs (call c) (obs c).
Proof.
  intros h tr a tr' H. rewrite run_call in H. injection H as _ <-.
  rewrite observe_app. simpl. now rewrite app_nil_r.
Qed.

Lemma emits_call_as (c : HostOp) (ks : list K) : obs c = ks -> emits obs (call c) ks.
Proof. intros <-. apply emits_call. Qed.

Lemma emits_bind (A B : Type) (m : Prog A) (f : A -> Prog B) (ks1 ks2 : list K) :
  emits obs m ks1 -> (forall a, emits obs (f a) ks2) -> emits obs (bind m f) (ks1 ++ ks2).
Proof.
  intros Hm Hf h tr b tr' H. rewrite run_bind in H.
  destruct (run h m tr) as [[a | e] t] eqn:E; [| discriminate H].
  apply Hm in E. apply Hf in H. now rewrite H, E, app_assoc.
Qed.

Lemma emits_eq (A : Type) (p : Prog A) (ks ks' : list K) :
  emits obs p ks -> ks = ks' -> emits obs p ks'.
Proof. now intros H <-. Qed.

Lemma emits_attr (o : option Obj) : emits obs (attr o) [].
Proof. destruct o; [apply emits_ret | apply emits_raise]. Qed.

Lemma emits_truediv (a b : float) : emits obs (truediv a b) [].
Proof. unfold truediv. destruct (b =? 0)%float; [apply emits_raise | apply emits_ret]. Qed.

Lemma emits_for_each (I : Type) (body : I -> Prog unit) (ks_of : I -> list K) (xs : list I) :
  (forall i, In i xs -> emits obs (body i) (ks_of i)) ->
  emits obs (for_each xs body) (flat_map ks_of xs).
Proof.
  induction xs as [| i xs IH]; intro H; simpl.
  - apply emits_ret.
  - apply emits_bind.
    + apply H. now left.
    + intros _. apply IH. intros j Hj. apply H. now right.
Qed.
End Observations.

Create HintDb emits.

(** Walks through a straight-line program, one statement at a time. *)
Ltac emits_walk :=
  repeat match goal with
    | |- emits _ (Ret _) _ => apply emits_ret
    | |- emits _ (Raise _) _ => apply emits_raise
    | |- emits ?obs (call ?c) _ => apply (@emits_call_as _ obs c); simpl; reflexivity
    | |- emits _ (attr _) _ => apply emits_attr
    | |- emits _ (truediv _ _) _ => apply emits_truediv
    | |- emits _ (bind _ _) _ => eapply emits_bind; [ | intros ? ]
    | |- emits _ _ _ => solve [ eauto 1 with emits ]
    end.

Ltac emits_straight := eapply emits_eq; [ emits_walk | reflexivity ].

(** ** Exceptions that are not handled *)

Section Uncaught.
Variable caught : HostOp -> Exn -> bool.

Lemma uncaught_call (c : HostOp) : uncaught caught (call c).
Proof.
  apply uncaught_Vis; [reflexivity |].
  intros [e | v]; constructor.
Qed.

Lemma uncaught_bind (A B : Type) (m : Prog A) (f : A -> Prog B) :
  uncaught caught m -> (forall a, uncaught caught (f a)) -> uncaught caught (bind m f).
Proof.
  intros Hm Hf. induction Hm as [a | e | c k Hk Hr IH]; simpl.
  - apply Hf.
  - constructor.
  - apply uncaught_Vis; [| exact IH].
    intros e He. now rewrite (Hk e He).
Qed.

Lemma uncaught_attr (o : option Obj) : uncaught caught (attr o).
Proof. destruct o; constructor. Qed.

Lemma uncaught_truediv (a b : float) : uncaught caught (truediv a b).
Proof. unfold truediv. destruct (b =? 0)%float; constructor. Qed.

Lemma uncaught_getitem (s : pystr) (i : nat) : uncaught caught (getitem s i).
Proof. unfold getitem. destruct (nth_error s i); constructor. Qed.

Lemma uncaught_for_each (I : Type) (body : I -> Prog unit) (xs : list I) :
  (forall i, uncaught caught (body i)) -> uncaught caught (for_each xs body).
Proof.
  intro H. induction xs as [| i xs IH]; simpl.
  - constructor.
  - apply uncaught_bind; auto.
Qed.

(** The meaning of [uncaught] on runs: a host access that raises an
    exception which is not [caught] is the last access of the run, and
    the run ends with that exception. *)
Lemma uncaught_sound (A : Type) (p : Prog A) :
  uncaught caught p ->
  forall h tr r tr', run h p tr = (r, tr') ->
  forall pre c post e,
    tr' = pre ++ c :: post -> (List.length tr <= List.length pre)%nat ->
    h pre c = inl e -> caught c e = false ->
    post = [] /\ r = Raised e.
Proof.
  induction 1 as [a | e0 | c0 k Hk Hr IH]; intros h tr r tr' Hrun pre c post e Htr Hlen Hh Hc.
  - simpl in Hrun. injection Hrun as _ <-. subst tr.
    rewrite length_app in Hlen. simpl in Hlen. lia.
  - simpl in Hrun. injection Hrun as _ <-. subst tr.
    rewrite length_app in Hlen. simpl in Hlen. lia.
  - simpl in Hrun.
    destruct (Nat.eq_dec (List.length tr) (List.length pre)) as [Heq | Hne].
    + destruct (run_extends h (k (h tr c0)) (tr ++ [c0])) as [ops Hops].
      rewrite Hrun in Hops. simpl in Hops. rewrite <- app_assoc in Hops. simpl in Hops.
      rewrite Htr in Hops. symmetry in Hops.
      destruct (app_same_length _ _ _ _ Hops Heq) as [-> Hcons].
      injection Hcons as -> ->.
      rewrite Hh, (Hk e Hc) in Hrun. simpl in Hrun.
      injection Hrun as <- Htr'.
      rewrite Htr in Htr'. apply app_inv_head in Htr'.
      injection Htr' as <-. auto.
    + apply (IH (h tr c0) h (tr ++ [c0]) r tr' Hrun pre c post e); auto.
      rewrite length_app. simpl. lia.
Qed.
End Uncaught.

Create HintDb uncaught.
#[export] Hint Resolve uncaught_call uncaught_bind uncaught_attr uncaught_truediv
  uncaught_getitem uncaught_for_each : uncaught.
#[export] Hint Constructors uncaught : uncaught.
#[export] Hint Extern 1 (uncaught ?caught (call ?c)) =>
  exact (uncaught_call caught c) : uncaught.

(** * Floats *)

(** ** The order of floats *)

Lemma SFltb_irrefl (a : spec_float) : SFltb a a = false.
Proof.
  unfold SFltb. destruct a as [[] | [] | | [] m e]; simpl; try reflexivity;
    rewrite Z.compare_refl, Pos.compare_cont_refl; reflexivity.
Qed.

Lemma SFltb_trans (a b c : spec_float) :
  SFltb a b = true -> SFltb b c = true -> SFltb a c = true.
Proof.
  unfold SFltb.
  destruct a as [[] | [] | | [] ma ea], b as [[] | [] | | [] mb eb], c as [[] | [] | | [] mc ec];
    simpl; try congruence;
    destruct (Z.compare_spec ea eb), (Z.compare_spec eb ec), (Z.compare_spec ea ec);
    try congruence; try lia; subst;
    rewrite ?Pos.compare_cont_spec; simpl;
    destruct (Pos.compare_spec ma mb), (Pos.compare_spec mb mc), (Pos.compare_spec ma mc);
    simpl; try congruence; try lia.
Qed.

Lemma ltb_irrefl (a : float) : (a <? a)%float = false.
Proof. rewrite ltb_spec. apply SFltb_irrefl. Qed.

Lemma ltb_trans (a b c : float) :
  (a <? b)%float = true -> (b <? c)%float = true -> (a <? c)%float = true.
Proof. rewrite !ltb_spec. apply SFltb_trans. Qed.

Lemma ltb_asym (a b : float) : (a <? b)%float = true -> (b <? a)%float = false.
Proof.
  intro H. destruct (b <? a)%float eqn:E; [| reflexivity].
  rewrite <- (ltb_irrefl a). symmetry. now apply ltb_trans with b.
Qed.

Lemma positive_nonzero (b : float) : (0 <? b)%float = true -> nonzero b.
Proof.
  unfold nonzero. rewrite ltb_spec, eqb_spec. unfold SFltb, SFeqb.
  replace (Prim2SF 0) with (S754_zero false) by reflexivity.
  destruct (Prim2SF b) as [s | s | | s m e]; try destruct s; simpl; congruence.
Qed.

(** ** Division and minimum *)

Lemma truediv_ne (a b : float) : nonzero b -> truediv a b = Ret (a / b)%float.
Proof. unfold nonzero, truediv. now intros ->. Qed.

Lemma truediv_zero (a b : float) :
  (b =? 0)%float = true -> truediv a b = Raise ZeroDivisionError.
Proof. unfold truediv. now intros ->. Qed.

Lemma truediv_nonzero (a b : float) :
  (0 <? b)%float = true -> truediv a b = Ret (a / b)%float.
Proof. intro Hb. now apply truediv_ne, positive_nonzero. Qed.

Lemma min3_is_one (a b c : float) : min3 a b c = a \/ min3 a b c = b \/ min3 a b c = c.
Proof.
  unfold min3. destruct (b <? a)%float.
  - destruct (c <? b)%float; auto.
  - destruct (c <? a)%float; auto.
Qed.

(** No argument of [min3] is less than its result. *)
Lemma min3_least (a b c : float) :
  (a <? min3 a b c)%float = false /\
  (b <? min3 a b c)%float = false /\
  (c <? min3 a b c)%float = false.
Proof.
  unfold min3.
  destruct (b <? a)%float eqn:Eba.
  - destruct (c <? b)%float eqn:Ecb.
    + repeat split.
      * apply ltb_asym. now apply ltb_trans with b.
      * now apply ltb_asym.
      * apply ltb_irrefl.
    + repeat split; auto using ltb_asym, ltb_irrefl.
  - destruct (c <? a)%float eqn:Eca.
    + repeat split; auto using ltb_asym, ltb_irrefl.
      destruct (b <? c)%float eqn:Ebc; [| reflexivity].
      rewrite <- Eba. symmetry. now apply ltb_trans with c.
    + repeat split; auto using ltb_irrefl.
Qed.

Example float_of_int_values :
  float_of_int 0 = 0%float /\
  float_of_int 100 = 100%float /\
  float_of_int (-3) = (-3)%float /\
  (float_of_int 5 / 100 = 0.05)%float /\
  float_of_int (2 ^ 53 + 1) = 9007199254740992%float.
Proof. repeat split. Qed.

(** * The export operator *)

Lemma finalize_mesh_no_export (max_size : float) : emits stl_exports (finalize_mesh max_size) [].
Proof. unfold finalize_mesh. emits_straight. Qed.

#[export] Hint Resolve finalize_mesh_no_export : emits.

Lemma export_execute_exports (self : Export_model.t) :
  Export_model.filename self <> [] ->
  emits stl_exports (Export_model.execute self)
    [OpsExportMeshStl true (Export_model.filename self ++ py "\export.stl") (py "*.stl")
       false true AxisY AxisZ 1].
Proof.
  intro Hf. unfold Export_model.execute.
  destruct (Export_model.filename self) as [| c f]; [congruence |].
  simpl (len _ =? 0)%nat. cbv iota. unfold export_to_stl. emits_straight.
Qed.

Lemma steady_host_calm (d : Vec.t) : calm (steady_host d).
Proof. intros t c. destruct c; simpl; eexists; reflexivity. Qed.

Lemma steady_host_active (d : Vec.t) : has_active_object (steady_host d).
Proof. intro t. exists 1%N. reflexivity. Qed.

Lemma steady_host_final_mesh (d : Vec.t) : final_mesh_is (steady_host d) 1%N d.
Proof. split; intro t; reflexivity. Qed.

(** On a calm host with an active object and a "final mesh" of positive
    dimensions, [finalize_mesh] returns, its last access being the
    assignment of the scale. *)
Lemma run_finalize_mesh (h : Host) (tr : Trace) (max_size : float) (o : Obj) (d : Vec.t) :
  calm h -> has_active_object h -> final_mesh_is h o d -> positive d ->
  let s := min3 (max_size / Vec.x d) (max_size / Vec.y d) (max_size / Vec.z d) in
  exists pre,
    run h (finalize_mesh max_size) tr =
    (Returned tt, pre ++ [SetScale o (Float s, Float s, Float s)]).
Proof.
  intros Hok Hctx [Hobj Hdim] (Hx & Hy & Hz) s.
  unfold finalize_mesh.
  cbn [run bind call attr].
  repeat match goal with
  | |- context [truediv _ _] => rewrite truediv_nonzero by assumption; cbn [run bind call attr]
  | |- context [h ?t (GetDimensions o)] => rewrite (Hdim t); cbn [run bind call attr]
  | |- context [h ?t (DataObjects ?n)] => rewrite (Hobj t); cbn [run bind call attr]
  | |- context [h ?t ContextObject] =>
      let m := fresh "m" in let Hm := fresh "Hm" in
      destruct (Hctx t) as [m Hm]; rewrite Hm; cbn [run bind call attr]
  | |- context [h ?t ?c] =>
      let v := fresh "v" in let Hv := fresh "Hv" in
      destruct (Hok t c) as [v Hv]; rewrite Hv; cbn [run bind call attr]
  end.
  match goal with |- context [Returned ?v] => destruct v end.
  eexists. reflexivity.
Qed.

Lemma run_export_to_stl (h : Host) (tr : Trace) (file : pystr) :
  calm h ->
  run h (export_to_stl file) tr =
  (Returned tt,
   (tr ++ [OpsObjectSelectAll SELECT])
   ++ [OpsExportMeshStl true file (py "*.stl") false true AxisY AxisZ 1]).
Proof.
  intro Hok. unfold export_to_stl. rewrite run_bind, !run_call.
  destruct (Hok tr (OpsObjectSelectAll SELECT)) as [[] ->].
  destruct (Hok (tr ++ [OpsObjectSelectAll SELECT])
              (OpsExportMeshStl true file (py "*.stl") false true AxisY AxisZ 1)) as [[] ->].
  reflexivity.
Qed.

Section ExportBranches.
Variables (self : Export_model.t) (h : Host) (tr : Trace).

Lemma run_export_empty :
  len (Export_model.filename self) = 0%nat ->
  run h (Export_model.execute self) tr =
  (match h tr (Report WARNING Export_model.path_warning) with
   | inl e => Raised e
   | inr _ => Returned CANCELLED
   end,
   tr ++ [Report WARNING Export_model.path_warning]).
Proof.
  intro Hlen. unfold Export_model.execute. rewrite Hlen. simpl (0 =? 0)%nat. cbv iota.
  rewrite run_then_return, run_call.
  destruct (h tr (Report WARNING Export_model.path_warning)); reflexivity.
Qed.

Lemma run_export_nonempty :
  len (Export_model.filename self) <> 0%nat ->
  run h (Export_model.execute self) tr =
  match run h (finalize_mesh (float_of_int (Export_model.max_size self) / 100)) tr with
  | (Returned _, t1) =>
      and_return FINISHED
        (run h (export_to_stl (Export_model.filename self ++ py "\export.stl")) t1)
  | (Raised e, t1) => (Raised e, t1)
  end.
Proof.
  intro Hlen. unfold Export_model.execute.
  apply Nat.eqb_neq in Hlen. rewrite Hlen.
  rewrite run_bind.
  destruct (run h (finalize_mesh _) tr) as [[[] | e] t1]; [| reflexivity].
  apply run_then_return.
Qed.

Lemma export_finished_filename (tr' : Trace) :
  run h (Export_model.execute self) tr = (Returned FINISHED, tr') ->
  Export_model.filename self <> [].
Proof.
  intros H E. rewrite run_export_empty in H by (now rewrite E).
  destruct (h tr (Report WARNING Export_model.path_warning)); discriminate H.
Qed.
End ExportBranches.

(** C3. With an empty filename [Export_model.execute] only reports
    "Invalid directory path." and returns CANCELLED: no other host access
    is made, so neither [finalize_mesh] nor [export_to_stl] runs.  With a
    non-empty filename it runs [finalize_mesh], then [export_to_stl], and
    returns FINISHED (an exception raised on the way ends the run; on a
    host that raises nothing, with a "final mesh" of positive dimensions,
    FINISHED is returned). *)
Theorem export_execute_path_check (self : Export_model.t) (h : Host) (tr : Trace) :
  (len (Export_model.filename self) = 0%nat ->
   run h (Export_model.execute self) tr =
   (match h tr (Report WARNING (py "Invalid directory path.")) with
    | inl e => Raised e
    | inr _ => Returned CANCELLED
    end,
    tr ++ [Report WARNING (py "Invalid directory path.")]))
  /\
  (len (Export_model.filename self) <> 0%nat ->
   run h (Export_model.execute self) tr =
   match run h (finalize_mesh (float_of_int (Export_model.max_size self) / 100)) tr with
   | (Returned _, t1) =>
       and_return FINISHED
         (run h (export_to_stl (Export_model.filename self ++ py "\export.stl")) t1)
   | (Raised e, t1) => (Raised e, t1)
   end)
  /\
  (len (Export_model.filename self) <> 0%nat ->
   forall o d,
     calm h -> has_active_object h -> final_mesh_is h o d -> positive d ->
     fst (run h (Export_model.execute self) tr) = Returned FINISHED).
Proof.
  split; [| split].
  - exact (run_export_empty self h tr).
  - exact (run_export_nonempty self h tr).
  - intros Hlen o d Hok Hctx Hfinal Hpos.
    rewrite (run_export_nonempty self h tr Hlen).
    destruct (run_finalize_mesh tr (float_of_int (Export_model.max_size self) / 100)
                Hok Hctx Hfinal Hpos) as [pre ->].
    now rewrite run_export_to_stl.
Qed.

Lemma export_execute_path_check_witness :
  run (steady_host slab) (Export_model.execute (Export_model.mk [] 10)) [] =
    (Returned CANCELLED, [Report WARNING (py "Invalid directory path.")])
  /\
  fst (run (steady_host slab) (Export_model.execute to_disk) []) = Returned FINISHED.
Proof.
  split.
  - exact (proj1 (export_execute_path_check (Export_model.mk [] 10) (steady_host slab) [])
             eq_refl).
  - refine (proj2 (proj2 (export_execute_path_check to_disk (steady_host slab) []))
              _ 1%N slab (steady_host_calm slab) (steady_host_active slab)
              (steady_host_final_mesh slab) _).
    + simpl. discriminate.
    + repeat split.
Defined.

(** C7. A run of [Export_model.execute] that returns FINISHED has a
    non-empty filename [f], and ends with the host's STL exporter called
    with [ascii=False] (binary STL) on the path [f] followed by a backslash
    and "export.stl"; it is the only export of the run. *)
Theorem export_execute_stl (self : Export_model.t) (h : Host) (tr tr' : Trace) :
  run h (Export_model.execute self) tr = (Returned FINISHED, tr') ->
  let f := Export_model.filename self in
  let op := OpsExportMeshStl true (f ++ py "\export.stl") (py "*.stl")
              false true AxisY AxisZ 1 in
  f <> [] /\
  (exists pre, tr' = pre ++ [op]) /\
  observe stl_exports tr' = observe stl_exports tr ++ [op].
Proof.
  intros H f op.
  pose proof (export_finished_filename _ _ _ H) as Hf. fold f in Hf.
  split; [exact Hf |]. split.
  - rewrite run_export_nonempty in H.
    2:{ intro E. apply Hf. unfold f. now destruct (Export_model.filename self). }
    destruct (run h (finalize_mesh _) tr) as [[[] | e] t1]; [| discriminate H].
    unfold export_to_stl in H. rewrite run_bind, !run_call in H.
    destruct (h t1 (OpsObjectSelectAll SELECT)); [discriminate H |].
    exists (t1 ++ [OpsObjectSelectAll SELECT]).
    unfold and_return in H.
    destruct (h _ (OpsExportMeshStl _ _ _ _ _ _ _ _)); [discriminate H |].
    injection H as <-. reflexivity.
  - exact (export_execute_exports self Hf _ _ H).
Qed.

Lemma export_execute_stl_witness :
  exists pre,
    snd (run (steady_host slab) (Export_model.execute (Export_model.mk (py "C:") 10)) []) =
    pre ++ [OpsExportMeshStl true (py "C:\export.stl") (py "*.stl") false true AxisY AxisZ 1].
Proof.
  exact (proj1 (proj2
    (export_execute_stl (Export_model.mk (py "C:") 10) (steady_host slab) [] eq_refl))).
Defined.

(** C10, as stated, fails: floats round.  With the export option
    [max_size] set to 5, [finalize_mesh] is called with [5 / 100]; on a
    final mesh of dimensions [(0.5, 0.5, 5.5)], all positive, the scale set
    is [s = (5 / 100) / 5.5].  The largest scaled dimension, [s * 5.5], is
    above [5 / 100], and no scaled dimension is equal to it. *)
Lemma scaled_dimension_above_max_size :
  let d := needle in
  let max_size := (float_of_int 5 / 100)%float in
  let s := min3 (max_size / Vec.x d) (max_size / Vec.y d) (max_size / Vec.z d) in
  let r := run (steady_host d) (Export_model.execute (Export_model.mk (py "C:") 5)) [] in
  positive d /\
  (fst r = Returned FINISHED /\
   observe scale_set (snd r) = [(1%N, (Float s, Float s, Float s))]) /\
  (exists pre,
     run (steady_host d) (finalize_mesh max_size) [] =
     (Returned tt, pre ++ [SetScale 1%N (Float s, Float s, Float s)])) /\
  s = (max_size / 5.5)%float /\
  (max_size <? s * Vec.z d)%float = true /\
  (s * Vec.x d =? max_size)%float = false /\
  (s * Vec.y d =? max_size)%float = false /\
  (s * Vec.z d =? max_size)%float = false.
Proof.
  intros d max_size s r. split; [repeat split |].
  split; [split; vm_compute; reflexivity |]. split.
  - exists (removelast (snd (run (steady_host d) (finalize_mesh max_size) []))).
    vm_compute. reflexivity.
  - repeat split.
Qed.

(** C10, amended. When the object named "final mesh" has dimensions [d],
    all positive, [finalize_mesh max_size] ends by assigning the scale
    [(s, s, s)] with [s = min(max_size / d.x, max_size / d.y, max_size / d.z)],
    the quotients being rounded as floats are: one factor for the three
    axes, which is one of the three quotients, and none of the three is
    less than it. *)
Theorem finalize_mesh_scale (h : Host) (tr : Trace) (max_size : float) (o : Obj) (d : Vec.t) :
  calm h -> has_active_object h -> final_mesh_is h o d ->
  (0 <? Vec.x d)%float = true -> (0 <? Vec.y d)%float = true -> (0 <? Vec.z d)%float = true ->
  let qx := (max_size / Vec.x d)%float in
  let qy := (max_size / Vec.y d)%float in
  let qz := (max_size / Vec.z d)%float in
  let s := min3 qx qy qz in
  (exists pre,
     run h (finalize_mesh max_size) tr =
     (Returned tt, pre ++ [SetScale o (Float s, Float s, Float s)])) /\
  (s = qx \/ s = qy \/ s = qz) /\
  ((qx <? s)%float = false /\ (qy <? s)%float = false /\ (qz <? s)%float = false).
Proof.
  intros Hok Hctx Hfinal Hx Hy Hz qx qy qz s.
  split; [| split].
  - apply run_finalize_mesh; auto. repeat split; assumption.
  - apply min3_is_one.
  - apply min3_least.
Qed.

Lemma finalize_mesh_scale_witness :
  let s := min3 (10 / 100 / 4) (10 / 100 / 2) (10 / 100 / 1) in
  (exists pre,
     run (steady_host slab) (finalize_mesh (10 / 100)) [] =
     (Returned tt, pre ++ [SetScale 1%N (Float s, Float s, Float s)])) /\
  (s = 10 / 100 / 4 \/ s = 10 / 100 / 2 \/ s = 10 / 100 / 1)%float /\
  ((10 / 100 / 4 <? s)%float = false /\ (10 / 100 / 2 <? s)%float = false /\
   (10 / 100 / 1 <? s)%float = false).
Proof.
  exact (@finalize_mesh_scale (steady_host slab) [] (10 / 100) 1%N slab
           (steady_host_calm slab) (steady_host_active slab) (steady_host_final_mesh slab)
           eq_refl eq_refl eq_refl).
Defined.

(** * The modelling operator *)

(** ** What [single_mesh] adds to a trace *)

Ltac unfold_single_mesh :=
  unfold single_mesh, create_text_object, create_intersection_object, add_platform;
  cbv beta iota zeta.

Lemma single_mesh_steps (fst snd : pystr) (w : bool) (ph : float) (font : option Font) (cp : Z) :
  emits step (single_mesh fst snd w ph font cp) (build w).
Proof.
  unfold_single_mesh. destruct w, font; emits_straight.
Qed.

Lemma single_mesh_platforms (fst snd : pystr) (w : bool) (ph : float) (font : option Font) (cp : Z) :
  emits platform (single_mesh fst snd w ph font cp) (platforms w ph).
Proof.
  unfold_single_mesh. destruct w, font; emits_straight.
Qed.

Lemma single_mesh_bodies (fst snd : pystr) (w : bool) (ph : float) (font : option Font) (cp : Z) :
  emits text_body (single_mesh fst snd w ph font cp) [fst; snd].
Proof.
  unfold_single_mesh. destruct w, font; emits_straight.
Qed.

(** ** What [mesh_by_letters] and [main] add to a trace *)

Lemma flat_map_constant (Y : Type) (ks : list Y) (n s : nat) :
  flat_map (fun _ : nat => ks) (seq s n) = concat (repeat ks n).
Proof.
  revert s. induction n as [| n IH]; intro s; simpl; [reflexivity |].
  now rewrite IH.
Qed.

Section ByLetters.
Variables (fst_word snd_word : pystr) (w : bool) (ph : float) (font : option Font).

(** With a first word no longer than the second, no subscript of
    [mesh_by_letters] is out of range: the loop is one [single_mesh] per
    index, on the letters at that index. *)
Lemma mesh_by_letters_in_range :
  (len fst_word <= len snd_word)%nat ->
  mesh_by_letters fst_word snd_word w ph font =
  for_each (range (len fst_word)) (fun i =>
    single_mesh [nth i fst_word 0%N] [nth i snd_word 0%N] w ph font
      (Z.of_nat i * 2 - Z.of_nat (len fst_word) / 2 - 2)%Z).
Proof.
  intro Hlen. unfold mesh_by_letters, range.
  assert (forall xs, (forall i, In i xs -> (i < len fst_word)%nat) ->
    for_each xs (fun i =>
      a <- getitem fst_word i ;;
      b <- getitem snd_word i ;;
      single_mesh a b w ph font (Z.of_nat i * 2 - Z.of_nat (len fst_word) / 2 - 2)%Z) =
    for_each xs (fun i =>
      single_mesh [nth i fst_word 0%N] [nth i snd_word 0%N] w ph font
        (Z.of_nat i * 2 - Z.of_nat (len fst_word) / 2 - 2)%Z)) as Hloop.
  { induction xs as [| i xs IH]; intro Hin; simpl; [reflexivity |].
    rewrite IH by (intros j Hj; apply Hin; now right).
    assert (i < len fst_word)%nat as Hi by (apply Hin; now left).
    unfold getitem.
    rewrite (nth_error_nth' fst_word 0%N Hi).
    rewrite (nth_error_nth' snd_word 0%N (Nat.lt_le_trans _ _ _ Hi Hlen)).
    reflexivity. }
  apply Hloop. intros i Hi. apply in_seq in Hi. lia.
Qed.

Lemma mesh_by_letters_repeats (K : Type) (obs : HostOp -> list K) (blk : list K) :
  (forall a b cp, emits obs (single_mesh a b w ph font cp) blk) ->
  emits obs (mesh_by_letters fst_word snd_word w ph font)
    (concat (repeat blk (len fst_word))).
Proof.
  intro Hblk. unfold mesh_by_letters, range.
  eapply emits_eq.
  - apply emits_for_each with (ks_of := fun _ => blk).
    intros i _. unfold getitem.
    destruct (nth_error fst_word i); simpl; [| apply emits_raise].
    destruct (nth_error snd_word i); simpl; [| apply emits_raise].
    apply Hblk.
  - apply flat_map_constant.
Qed.

Lemma mesh_by_letters_bodies :
  emits text_body (mesh_by_letters fst_word snd_word w ph font)
    (flat_map (fun i => [[nth i fst_word 0%N]; [nth i snd_word 0%N]])
       (range (len fst_word))).
Proof.
  unfold mesh_by_letters.
  apply emits_for_each. intros i _. unfold getitem.
  destruct (nth_error fst_word i) eqn:Ea; simpl; [| apply emits_raise].
  destruct (nth_error snd_word i) eqn:Eb; simpl; [| apply emits_raise].
  assert (nth i fst_word 0%N = c) as -> by (now apply nth_error_nth).
  assert (nth i snd_word 0%N = c0) as -> by (now apply nth_error_nth).
  apply single_mesh_bodies.
Qed.
End ByLetters.

#[export] Hint Resolve single_mesh_steps single_mesh_platforms single_mesh_bodies
  mesh_by_letters_bodies : emits.

Lemma main_steps (fst snd : pystr) (by_letters w : bool) (ph : float) (font : option Font) :
  emits step (main fst snd by_letters w ph font)
    (concat (repeat (build w) (models by_letters fst))).
Proof.
  pose proof (@mesh_by_letters_repeats fst snd w ph font _ step (build w)
                (fun a b cp => single_mesh_steps a b w ph font cp)) as Hletters.
  unfold main, clear_workspace, models.
  destruct by_letters; eapply emits_eq; [emits_walk | | emits_walk |];
    try exact Hletters; simpl; now rewrite ?app_nil_r.
Qed.

Lemma main_platforms (fst snd : pystr) (by_letters w : bool) (ph : float) (font : option Font) :
  emits platform (main fst snd by_letters w ph font)
    (concat (repeat (platforms w ph) (models by_letters fst))).
Proof.
  pose proof (@mesh_by_letters_repeats fst snd w ph font _ platform (platforms w ph)
                (fun a b cp => single_mesh_platforms a b w ph font cp)) as Hletters.
  unfold main, clear_workspace, models.
  destruct by_letters; eapply emits_eq; [emits_walk | | emits_walk |];
    try exact Hletters; simpl; now rewrite ?app_nil_r.
Qed.

Lemma main_bodies (fst snd : pystr) (by_letters w : bool) (ph : float) (font : option Font) :
  emits text_body (main fst snd by_letters w ph font)
    (if by_letters
     then flat_map (fun i => [[nth i fst 0%N]; [nth i snd 0%N]]) (range (len fst))
     else [fst; snd]).
Proof.
  unfold main, clear_workspace.
  destruct by_letters; eapply emits_eq; [emits_walk | | emits_walk |];
    simpl; now rewrite ?app_nil_r.
Qed.

(** ** The two branches of [Model_mesh.execute] *)

Lemma rejected_true (self : Model_mesh.t) :
  rejected self = true <->
  Model_mesh.by_letters self = true /\ len (Model_mesh.fst self) <> len (Model_mesh.snd self).
Proof.
  unfold rejected. rewrite andb_true_iff, negb_true_iff, Nat.eqb_neq. reflexivity.
Qed.

Lemma rejected_false (self : Model_mesh.t) :
  rejected self = false <->
  Model_mesh.by_letters self = false \/ len (Model_mesh.fst self) = len (Model_mesh.snd self).
Proof.
  unfold rejected. rewrite andb_false_iff, negb_false_iff, Nat.eqb_eq. reflexivity.
Qed.

Section ExecuteBranches.
Variable up : codepoint -> pystr.
Variable self : Model_mesh.t.

Lemma execute_rejected :
  rejected self = true ->
  Model_mesh.execute up self =
  (call (Report WARNING Model_mesh.length_warning) ;; Ret CANCELLED).
Proof. unfold rejected, Model_mesh.execute. now intros ->. Qed.

Lemma execute_accepted :
  rejected self = false ->
  Model_mesh.execute up self =
  (font <- load_font (Model_mesh.font_path self) ;;
   main (upper up (Model_mesh.fst self)) (upper up (Model_mesh.snd self))
        (Model_mesh.by_letters self) (Model_mesh.with_top_platform self)
        (Model_mesh.platform_height self / 10)%float font ;;
   Ret FINISHED).
Proof. unfold rejected, Model_mesh.execute, load_font. now intros ->. Qed.

Lemma run_execute_rejected (h : Host) (tr : Trace) :
  rejected self = true ->
  run h (Model_mesh.execute up self) tr =
  (match h tr (Report WARNING Model_mesh.length_warning) with
   | inl e => Raised e
   | inr _ => Returned CANCELLED
   end,
   tr ++ [Report WARNING Model_mesh.length_warning]).
Proof.
  intro H. rewrite (execute_rejected H), run_then_return, run_call.
  destruct (h tr _); reflexivity.
Qed.

Lemma execute_finished_accepted (h : Host) (tr tr' : Trace) :
  run h (Model_mesh.execute up self) tr = (Returned FINISHED, tr') ->
  rejected self = false.
Proof.
  intro H. destruct (rejected self) eqn:E; [| reflexivity].
  rewrite (run_execute_rejected h tr E) in H.
  destruct (h tr _); discriminate H.
Qed.
End ExecuteBranches.

Lemma run_load_font (h : Host) (path : pystr) (tr : Trace) :
  run h (load_font path) tr =
  match h tr (DataFontsLoad path) with
  | inr f => (Returned (Some f), tr ++ [DataFontsLoad path])
  | inl RuntimeError =>
      (match h (tr ++ [DataFontsLoad path]) (Report WARNING Model_mesh.font_warning) with
       | inl e => Raised e
       | inr _ => Returned None
       end,
       (tr ++ [DataFontsLoad path]) ++ [Report WARNING Model_mesh.font_warning])
  | inl e => (Raised e, tr ++ [DataFontsLoad path])
  end.
Proof.
  unfold load_font. simpl.
  destruct (h tr (DataFontsLoad path)) as [[] | f]; simpl; try reflexivity.
  destruct (h _ (Report WARNING Model_mesh.font_warning)); reflexivity.
Qed.

Lemma load_font_quiet (K : Type) (obs : HostOp -> list K) (path : pystr) :
  obs (DataFontsLoad path) = [] ->
  obs (Report WARNING Model_mesh.font_warning) = [] ->
  emits obs (load_font path) [].
Proof.
  intros Hload Hreport h tr a tr' H. rewrite run_load_font in H.
  destruct (h tr (DataFontsLoad path)) as [[] | f]; try discriminate H.
  - destruct (h _ (Report WARNING Model_mesh.font_warning)); [discriminate H |].
    injection H as _ <-.
    rewrite !observe_app. simpl. now rewrite Hload, Hreport, !app_nil_r.
  - injection H as _ <-.
    rewrite !observe_app. simpl. now rewrite Hload, !app_nil_r.
Qed.

(** A finished run of [Model_mesh.execute] adds what [main] adds, as far
    as an observation blind to font loading and reports goes. *)
Lemma execute_finished_emits (K : Type) (obs : HostOp -> list K) (ks : list K)
    (up : codepoint -> pystr) (self : Model_mesh.t) :
  (forall path, obs (DataFontsLoad path) = []) ->
  (forall msg, obs (Report WARNING msg) = []) ->
  (forall font,
     emits obs
       (main (upper up (Model_mesh.fst self)) (upper up (Model_mesh.snd self))
             (Model_mesh.by_letters self) (Model_mesh.with_top_platform self)
             (Model_mesh.platform_height self / 10)%float font) ks) ->
  forall h tr tr',
    run h (Model_mesh.execute up self) tr = (Returned FINISHED, tr') ->
    observe obs tr' = observe obs tr ++ ks.
Proof.
  intros Hload Hreport Hmain h tr tr' H.
  pose proof (execute_finished_accepted _ _ _ _ H) as Hacc.
  rewrite (execute_accepted up self Hacc) in H.
  revert H. eapply emits_eq.
  - eapply emits_bind; [apply load_font_quiet; auto |].
    intro font. eapply emits_bind; [apply Hmain |].
    intros _. apply emits_ret.
  - simpl. now rewrite app_nil_r.
Qed.

(** * The claims about the modelling operator *)

(** C1, as stated, fails: modelling "ab" and "cd" by letters and exporting
    both finish, and the second letter pair's texts are created after the
    first pair's union was applied. *)
Lemma by_letters_breaks_pipeline_order :
  let h := steady_host slab in
  let r1 := run h (Model_mesh.execute latin1_to_upper_full two_letters) [] in
  let r2 := run h (Export_model.execute to_disk) (snd r1) in
  fst r1 = Returned FINISHED /\
  fst r2 = Returned FINISHED /\
  observe step (snd r2) =
    [Text; Mesh; Text; Mesh; Boolean INTERSECT; Apply intersection_name;
     Boolean UNION; Apply union_name;
     Text; Mesh; Text; Mesh; Boolean INTERSECT; Apply intersection_name;
     Boolean UNION; Apply union_name;
     Decimate; Apply decimate_name; Scale; Export] /\
  pipeline_order (observe step (snd r2)) = false.
Proof. vm_compute. auto. Qed.

Lemma export_steps (self : Export_model.t) (h : Host) (tr tr' : Trace) :
  run h (Export_model.execute self) tr = (Returned FINISHED, tr') ->
  observe step tr' = observe step tr ++ finish.
Proof.
  intro H.
  pose proof (export_finished_filename _ _ _ H) as Hf.
  revert H. unfold Export_model.execute.
  destruct (Export_model.filename self) as [| c f]; [congruence |].
  simpl (len _ =? 0)%nat. cbv iota. unfold finalize_mesh, export_to_stl.
  emits_straight.
Qed.

(** C1, amended. In a full run (both operators finish) the steps added to
    the trace are: one [build] per [single_mesh] (texts created and
    converted, INTERSECT applied, UNION with the platform applied, once or
    twice), one after the other, as many as there are models (one, or one
    per letter when modelling by letters); then decimation, the scale, the
    export.  One [build] followed by [finish] is in pipeline order, and
    decimation comes before the export in every run. *)
Theorem full_run_steps (up : codepoint -> pystr) (self : Model_mesh.t)
    (ex : Export_model.t) (h : Host) (tr0 tr1 tr2 : Trace) :
  run h (Model_mesh.execute up self) tr0 = (Returned FINISHED, tr1) ->
  run h (Export_model.execute ex) tr1 = (Returned FINISHED, tr2) ->
  observe step tr2 =
    observe step tr0
    ++ List.concat (repeat (build (Model_mesh.with_top_platform self))
         (models (Model_mesh.by_letters self) (upper up (Model_mesh.fst self))))
    ++ [Decimate; Apply decimate_name; Scale; Export]
  /\ pipeline_order (build (Model_mesh.with_top_platform self) ++ finish) = true.
Proof.
  intros H1 H2. split.
  - rewrite (export_steps _ _ _ H2).
    rewrite (execute_finished_emits (obs := step) (ks := List.concat _) up self
               (fun _ => eq_refl) (fun _ => eq_refl)
               (fun font => main_steps _ _ _ _ _ font) _ _ H1).
    now rewrite <- app_assoc.
  - destruct (Model_mesh.with_top_platform self); reflexivity.
Qed.

Lemma full_run_steps_witness :
  observe step
    (snd (run (steady_host slab) (Export_model.execute to_disk)
            (snd (run (steady_host slab)
                    (Model_mesh.execute latin1_to_upper_full whole_words) [])))) =
  [] ++ List.concat (repeat (build true) 1) ++ [Decimate; Apply decimate_name; Scale; Export]
  /\ pipeline_order (build true ++ finish) = true.
Proof.
  exact (@full_run_steps latin1_to_upper_full whole_words to_disk (steady_host slab)
           [] _ _ eq_refl eq_refl).
Defined.

Lemma and_return_finished (A : Type) (r : Outcome A * Trace) :
  fst (and_return FINISHED r) <> Returned CANCELLED.
Proof. destruct r as [[a | e] t]; simpl; congruence. Qed.

(** C2. When modelling by letters with words of different lengths,
    [Model_mesh.execute] only reports the warning and returns CANCELLED:
    no other host access is made, so [main] does not run and the scene is
    untouched.  In every other case the result is never CANCELLED and
    [main] runs on the uppercase words, with the loaded font, or with
    [None] after the font warning when loading raised [RuntimeError]. *)
Theorem model_execute_length_check (up : codepoint -> pystr) (self : Model_mesh.t)
    (h : Host) (tr : Trace) :
  let path := Model_mesh.font_path self in
  let main_with font :=
    main (upper up (Model_mesh.fst self)) (upper up (Model_mesh.snd self))
         (Model_mesh.by_letters self) (Model_mesh.with_top_platform self)
         (Model_mesh.platform_height self / 10)%float font in
  let length_warning :=
    py "Words have to have the same length in order to model them separately by letters." in
  let font_warning := py "Could not load wanted font. Chose default instead." in
  (Model_mesh.by_letters self = true ->
   len (Model_mesh.fst self) <> len (Model_mesh.snd self) ->
   run h (Model_mesh.execute up self) tr =
   (match h tr (Report WARNING length_warning) with
    | inl e => Raised e
    | inr _ => Returned CANCELLED
    end,
    tr ++ [Report WARNING length_warning]))
  /\
  (Model_mesh.by_letters self = false \/
   len (Model_mesh.fst self) = len (Model_mesh.snd self) ->
   fst (run h (Model_mesh.execute up self) tr) <> Returned CANCELLED /\
   (forall f, h tr (DataFontsLoad path) = inr f ->
      run h (Model_mesh.execute up self) tr =
      and_return FINISHED (run h (main_with (Some f)) (tr ++ [DataFontsLoad path]))) /\
   (h tr (DataFontsLoad path) = inl RuntimeError ->
    h (tr ++ [DataFontsLoad path]) (Report WARNING font_warning) = inr tt ->
      run h (Model_mesh.execute up self) tr =
      and_return FINISHED
        (run h (main_with None)
           ((tr ++ [DataFontsLoad path]) ++ [Report WARNING font_warning])))).
Proof.
  intros path main_with length_warning font_warning. split.
  - intros Hby Hlen.
    apply run_execute_rejected. apply rejected_true. auto.
  - intro Hok. apply rejected_false in Hok.
    rewrite (execute_accepted up self Hok). fold path. fold main_with.
    repeat split.
    + rewrite run_bind.
      destruct (run h (load_font path) tr) as [[font | e] t1].
      * rewrite run_then_return. apply and_return_finished.
      * simpl. congruence.
    + intros f Hf. rewrite run_bind, run_load_font, Hf. apply run_then_return.
    + intros Hload Hreport.
      rewrite run_bind, run_load_font, Hload.
      change (Report WARNING Model_mesh.font_warning) with (Report WARNING font_warning).
      rewrite Hreport. apply run_then_return.
Qed.

Lemma model_execute_length_check_witness :
  run (steady_host slab) (Model_mesh.execute latin1_to_upper_full unequal_words) [] =
    (Returned CANCELLED,
     [Report WARNING
        (py "Words have to have the same length in order to model them separately by letters.")])
  /\
  fst (run (steady_host slab) (Model_mesh.execute latin1_to_upper_full two_letters) []) <>
    Returned CANCELLED.
Proof.
  split.
  - refine (proj1 (model_execute_length_check latin1_to_upper_full unequal_words (steady_host slab) [])
              eq_refl _).
    simpl. discriminate.
  - refine (proj1 (proj2 (model_execute_length_check latin1_to_upper_full two_letters
                            (steady_host slab) []) _)).
    right. reflexivity.
Defined.

(** C4. Called by letters on words of equal length [n], [main] runs
    [single_mesh] once per index [0..n-1], in order, on the letters at
    that index (no subscript is out of range), so a run that returns sets
    the text bodies [fst[0], snd[0], fst[1], snd[1], ...]; called on whole
    words it runs [single_mesh] once, on the two words. *)
Theorem main_single_mesh_calls (fst snd : pystr) (w : bool) (ph : float)
    (font : option Font) (h : Host) (tr tr' : Trace) :
  (len fst = len snd ->
   mesh_by_letters fst snd w ph font =
     for_each (range (len fst)) (fun i =>
       single_mesh [nth i fst 0%N] [nth i snd 0%N] w ph font
         (Z.of_nat i * 2 - Z.of_nat (len fst) / 2 - 2)%Z)
   /\
   (run h (main fst snd true w ph font) tr = (Returned tt, tr') ->
    observe text_body tr' =
      observe text_body tr
      ++ flat_map (fun i => [[nth i fst 0%N]; [nth i snd 0%N]]) (range (len fst))))
  /\
  (run h (main fst snd false w ph font) tr = (Returned tt, tr') ->
   observe text_body tr' = observe text_body tr ++ [fst; snd]).
Proof.
  split.
  - intro Hlen. split.
    + apply mesh_by_letters_in_range. rewrite Hlen. apply Nat.le_refl.
    + intro H. exact (main_bodies fst snd true w ph font _ _ H).
  - intro H. exact (main_bodies fst snd false w ph font _ _ H).
Qed.

Lemma main_single_mesh_calls_witness :
  observe text_body
    (snd (run (steady_host slab) (main (py "AB") (py "CD") true false 1 None) [])) =
  [] ++ [py "A"; py "C"; py "B"; py "D"]
  /\
  observe text_body
    (snd (run (steady_host slab) (main (py "AB") (py "CD") false false 1 None) [])) =
  [] ++ [py "AB"; py "CD"].
Proof.
  split.
  - exact (proj2 (proj1 (@main_single_mesh_calls (py "AB") (py "CD") false 1 None
                           (steady_host slab) [] _) eq_refl) eq_refl).
  - exact (proj2 (@main_single_mesh_calls (py "AB") (py "CD") false 1 None
                    (steady_host slab) [] _) eq_refl).
Defined.

(** C5, as stated, fails: without the top-platform option a platform cube
    is still added (at height 0) and joined to the intersection mesh. *)
Lemma platform_without_option :
  let r := run (steady_host slab)
             (Model_mesh.execute latin1_to_upper_full no_top_platform) [] in
  Model_mesh.with_top_platform no_top_platform = false /\
  fst r = Returned FINISHED /\
  observe platform (snd r) = [PlatformCube (Int 0); PlatformJoined].
Proof. vm_compute. auto. Qed.

(** C5, amended. Every model gets the bottom platform: a cube added at
    height 0 and joined by the UNION modifier.  The top platform, a cube at
    height 1.98 plus the platform height, is added and joined exactly when
    the top-platform option is set. *)
Theorem execute_platforms (up : codepoint -> pystr) (self : Model_mesh.t)
    (h : Host) (tr tr' : Trace) :
  run h (Model_mesh.execute up self) tr = (Returned FINISHED, tr') ->
  let ph := (Model_mesh.platform_height self / 10)%float in
  let per_model :=
    [PlatformCube (Int 0); PlatformJoined]
    ++ (if Model_mesh.with_top_platform self
        then [PlatformCube (Float (1.98 + ph)); PlatformJoined]
        else []) in
  observe platform tr' =
    observe platform tr
    ++ List.concat (repeat per_model
         (models (Model_mesh.by_letters self) (upper up (Model_mesh.fst self)))).
Proof.
  intros H ph per_model.
  exact (execute_finished_emits (obs := platform) up self
           (fun _ => eq_refl) (fun _ => eq_refl)
           (fun font => main_platforms _ _ _ _ _ font) _ _ H).
Qed.

Lemma execute_platforms_witness :
  observe platform
    (snd (run (steady_host slab) (Model_mesh.execute latin1_to_upper_full whole_words) [])) =
  [] ++ List.concat (repeat ([PlatformCube (Int 0); PlatformJoined]
                             ++ [PlatformCube (Float (1.98 + 1 / 10)); PlatformJoined]) 1).
Proof.
  exact (@execute_platforms latin1_to_upper_full whole_words (steady_host slab) [] _ eq_refl).
Defined.

Lemma ascii_upper_pair (a : codepoint) :
  (65 <= a <= 90)%N -> ascii_upper a = a /\ ascii_upper (a + 32)%N = a.
Proof.
  intros [Hlo Hhi]. unfold ascii_upper. split.
  - replace (N.leb 97 a) with false by (symmetry; apply N.leb_gt; lia). reflexivity.
  - replace (N.leb 97 (a + 32)) with true by (symmetry; apply N.leb_le; lia).
    replace (N.leb (a + 32) 122) with true by (symmetry; apply N.leb_le; lia).
    simpl. lia.
Qed.

Lemma upper_same_ascii_letter (up : codepoint -> pystr) (a b : codepoint) :
  ascii_table up -> same_ascii_letter a b -> up a = up b.
Proof.
  intros Hup [-> | [[Ha ->] | [Hb ->]]]; [reflexivity | |].
  - destruct (ascii_upper_pair Ha) as [E1 E2].
    rewrite (Hup a), (Hup (a + 32)%N), E1, E2 by lia. reflexivity.
  - destruct (ascii_upper_pair Hb) as [E1 E2].
    rewrite (Hup b), (Hup (b + 32)%N), E1, E2 by lia. reflexivity.
Qed.

Lemma upper_same_ascii_letters (up : codepoint -> pystr) (s t : pystr) :
  ascii_table up -> Forall2 same_ascii_letter s t ->
  upper up s = upper up t /\ len s = len t.
Proof.
  intros Hup H. induction H as [| a b s t Hab _ [IHu IHl]]; [now split |].
  unfold upper, len in *. simpl.
  now rewrite IHu, IHl, (upper_same_ascii_letter Hup Hab).
Qed.

Lemma upper_ascii (up : codepoint -> pystr) (s : pystr) :
  ascii_table up -> is_ascii s -> upper up s = map ascii_upper s.
Proof.
  intros Hup H. induction H as [| c s Hc _ IH]; [reflexivity |].
  unfold upper in *. simpl. now rewrite IH, (Hup c Hc).
Qed.

Lemma latin1_ascii : ascii_table latin1_to_upper_full.
Proof.
  intros c Hc. unfold latin1_to_upper_full, ascii_upper.
  destruct (N.leb 97 c && N.leb c 122); [reflexivity |].
  replace (N.eqb c 181) with false by (symmetry; apply N.eqb_neq; lia).
  replace (N.eqb c 223) with false by (symmetry; apply N.eqb_neq; lia).
  replace (N.leb 224 c) with false by (symmetry; apply N.leb_gt; lia).
  replace (N.eqb c 255) with false by (symmetry; apply N.eqb_neq; lia).
  reflexivity.
Qed.

(** C8, as stated, fails outside ASCII.  "k" and the Kelvin sign differ
    only in letter case: they have the same lowercase form.  [str.upper()]
    gives "K" for the first and leaves the second, an uppercase letter,
    unchanged; so [main] is called on different words, and the texts built
    differ. *)
Lemma kelvin_sign_is_kept :
  let h := steady_host slab in
  let r1 := run h (Model_mesh.execute latin1_to_upper_full small_k) [] in
  let r2 := run h (Model_mesh.execute latin1_to_upper_full kelvin_sign) [] in
  (map kelvin_to_lower (Model_mesh.fst small_k) =
   map kelvin_to_lower (Model_mesh.fst kelvin_sign) /\
   Model_mesh.snd small_k = Model_mesh.snd kelvin_sign) /\
  (upper latin1_to_upper_full (Model_mesh.fst small_k) = py "K" /\
   upper latin1_to_upper_full (Model_mesh.fst kelvin_sign) = [8490%N]) /\
  (fst r1 = Returned FINISHED /\ fst r2 = Returned FINISHED) /\
  (observe text_body (snd r1) = [py "K"; py "A"] /\
   observe text_body (snd r2) = [[8490%N]; py "A"]) /\
  Model_mesh.execute latin1_to_upper_full small_k <>
  Model_mesh.execute latin1_to_upper_full kelvin_sign.
Proof.
  intros h r1 r2.
  split; [split; reflexivity |]. split; [split; reflexivity |].
  split; [split; vm_compute; reflexivity |].
  split; [split; vm_compute; reflexivity |].
  intro E.
  assert (observe text_body (snd r1) = observe text_body (snd r2)) as Hobs
    by (unfold r1, r2; now rewrite E).
  vm_compute in Hobs. discriminate Hobs.
Qed.

(** C8, amended. When [Model_mesh.execute] passes the length check, the
    words it gives to [main] are the uppercase forms of [fst] and [snd]:
    for ASCII words, the words with a..z replaced by A..Z; and the texts of
    a run that returns FINISHED are made from the uppercase forms.  Two
    invocations whose words differ only in the case of the letters A..Z,
    all else equal, are the same program: the same call of [main], the same
    host accesses. *)
Theorem model_execute_uppercase (up : codepoint -> pystr) (self : Model_mesh.t)
    (fst' snd' : pystr) (h : Host) (tr tr' : Trace) :
  ascii_table up ->
  let upper_fst := upper up (Model_mesh.fst self) in
  let upper_snd := upper up (Model_mesh.snd self) in
  (is_ascii (Model_mesh.fst self) -> is_ascii (Model_mesh.snd self) ->
   rejected self = false ->
   Model_mesh.execute up self =
   (font <- try_except
              (f <- call (DataFontsLoad (Model_mesh.font_path self)) ;; Ret (Some f))
              RuntimeError
              (call (Report WARNING Model_mesh.font_warning) ;; Ret None) ;;
    main (map ascii_upper (Model_mesh.fst self)) (map ascii_upper (Model_mesh.snd self))
         (Model_mesh.by_letters self) (Model_mesh.with_top_platform self)
         (Model_mesh.platform_height self / 10)%float font ;;
    Ret FINISHED))
  /\
  (run h (Model_mesh.execute up self) tr = (Returned FINISHED, tr') ->
   observe text_body tr' =
     observe text_body tr
     ++ (if Model_mesh.by_letters self
         then flat_map (fun i => [[nth i upper_fst 0%N]; [nth i upper_snd 0%N]])
                (range (len upper_fst))
         else [upper_fst; upper_snd]))
  /\
  (Forall2 same_ascii_letter (Model_mesh.fst self) fst' ->
   Forall2 same_ascii_letter (Model_mesh.snd self) snd' ->
   upper_fst = upper up fst' /\
   upper_snd = upper up snd' /\
   Model_mesh.execute up self =
   Model_mesh.execute up
     (Model_mesh.mk fst' snd' (Model_mesh.font_path self) (Model_mesh.by_letters self)
        (Model_mesh.platform_height self) (Model_mesh.with_top_platform self))).
Proof.
  intros Hup upper_fst upper_snd. split; [| split].
  - intros Hfst Hsnd Hacc.
    rewrite <- (upper_ascii Hup Hfst), <- (upper_ascii Hup Hsnd).
    exact (execute_accepted up self Hacc).
  - intro H.
    exact (execute_finished_emits (obs := text_body) up self
             (fun _ => eq_refl) (fun _ => eq_refl)
             (fun font => main_bodies _ _ _ _ _ font) _ _ H).
  - intros Hfst Hsnd.
    destruct (upper_same_ascii_letters Hup Hfst) as [Hu1 Hl1].
    destruct (upper_same_ascii_letters Hup Hsnd) as [Hu2 Hl2].
    repeat split; auto.
    unfold Model_mesh.execute. simpl. now rewrite Hu1, Hu2, Hl1, Hl2.
Qed.

Lemma model_execute_uppercase_witness :
  observe text_body
    (snd (run (steady_host slab) (Model_mesh.execute latin1_to_upper_full two_letters) [])) =
  [] ++ flat_map (fun i => [[nth i (py "AB") 0%N]; [nth i (py "CD") 0%N]]) (range 2)
  /\
  Model_mesh.execute latin1_to_upper_full two_letters =
  Model_mesh.execute latin1_to_upper_full
    (Model_mesh.mk (py "Ab") (py "CD") (py "C:\font.ttf") true 1 false).
Proof.
  split.
  - exact (proj1 (proj2 (@model_execute_uppercase latin1_to_upper_full two_letters
                           (py "Ab") (py "CD") (steady_host slab) [] _ latin1_ascii))
             eq_refl).
  - refine (proj2 (proj2 (proj2 (proj2
              (@model_execute_uppercase latin1_to_upper_full two_letters
                 (py "Ab") (py "CD") (steady_host slab) [] [] latin1_ascii)) _ _))).
    + constructor; [right; right; split; [split; now vm_compute | reflexivity] |].
      constructor; [left; reflexivity | constructor].
    + constructor; [right; right; split; [split; now vm_compute | reflexivity] |].
      constructor; [right; right; split; [split; now vm_compute | reflexivity] | constructor].
Defined.

Section NoHandlers.
Variable caught : HostOp -> Exn -> bool.

Lemma clear_workspace_uncaught : uncaught caught clear_workspace.
Proof. unfold clear_workspace. auto with uncaught. Qed.

Lemma create_text_object_uncaught txt extrude_size name rotation_z cp ph font :
  uncaught caught (create_text_object txt extrude_size name rotation_z cp ph font).
Proof.
  unfold create_text_object. destruct font; cbv beta iota; auto 20 with uncaught.
Qed.

Lemma create_intersection_object_uncaught fst_text :
  uncaught caught (create_intersection_object fst_text).
Proof. unfold create_intersection_object. auto 30 with uncaught. Qed.

Lemma add_platform_uncaught intersect_mesh cp ph width depth is_top :
  uncaught caught (add_platform intersect_mesh cp ph width depth is_top).
Proof.
  unfold add_platform. destruct is_top; cbv beta iota zeta; auto 40 with uncaught.
Qed.

Lemma finalize_mesh_uncaught max_size : uncaught caught (finalize_mesh max_size).
Proof. unfold finalize_mesh. auto 30 with uncaught. Qed.

Lemma export_to_stl_uncaught file : uncaught caught (export_to_stl file).
Proof. unfold export_to_stl. auto with uncaught. Qed.

Hint Resolve clear_workspace_uncaught create_text_object_uncaught
  create_intersection_object_uncaught add_platform_uncaught : uncaught.

Lemma single_mesh_uncaught fst snd w ph font cp :
  uncaught caught (single_mesh fst snd w ph font cp).
Proof. unfold single_mesh. destruct w; auto 10 with uncaught. Qed.

Hint Resolve single_mesh_uncaught : uncaught.

Lemma mesh_by_letters_uncaught fst_word snd_word w ph font :
  uncaught caught (mesh_by_letters fst_word snd_word w ph font).
Proof. unfold mesh_by_letters. auto 10 with uncaught. Qed.

Hint Resolve mesh_by_letters_uncaught : uncaught.

Lemma main_uncaught fst snd by_letters w ph font :
  uncaught caught (main fst snd by_letters w ph font).
Proof. unfold main. destruct by_letters; auto 10 with uncaught. Qed.
End NoHandlers.

Lemma load_font_uncaught (path : pystr) : uncaught font_fallback (load_font path).
Proof.
  unfold load_font. unfold call at 1. cbn [bind try_except].
  apply uncaught_Vis.
  - intros e He. destruct e; simpl in *; try reflexivity. discriminate He.
  - intros [e | f]; cbn [bind try_except]; [| constructor].
    destruct (Exn_eqb e RuntimeError); auto with uncaught.
Qed.

Lemma model_execute_uncaught (up : codepoint -> pystr) (self : Model_mesh.t) :
  uncaught font_fallback (Model_mesh.execute up self).
Proof.
  destruct (rejected self) eqn:E.
  - rewrite (execute_rejected up self E). auto with uncaught.
  - rewrite (execute_accepted up self E).
    apply uncaught_bind; [apply load_font_uncaught |].
    intro font. apply uncaught_bind; [apply main_uncaught |].
    intros _. constructor.
Qed.

Lemma export_execute_uncaught (self : Export_model.t) :
  uncaught never (Export_model.execute self).
Proof.
  unfold Export_model.execute.
  destruct (len (Export_model.filename self) =? 0)%nat;
    auto using finalize_mesh_uncaught, export_to_stl_uncaught with uncaught.
Qed.

(** C9 holds of [mesh_by_letters] under its precondition
    ([mesh_by_letters_in_range]), but [Model_mesh.execute] does not
    establish the precondition: it compares the lengths of the words as
    typed and passes their uppercase forms.  "Fuss" written with a sharp s
    and "Rad" have three letters each; in uppercase they are "FUSS" and
    "RAD", and the subscript [snd_word[3]] is out of range. *)
Lemma sharp_s_index_error :
  len (Model_mesh.fst sharp_s_words) = len (Model_mesh.snd sharp_s_words) /\
  upper latin1_to_upper_full (Model_mesh.fst sharp_s_words) = py "FUSS" /\
  upper latin1_to_upper_full (Model_mesh.snd sharp_s_words) = py "RAD" /\
  getitem (py "RAD") 3 = Raise IndexError /\
  fst (run (steady_host slab) (Model_mesh.execute latin1_to_upper_full sharp_s_words) []) =
    Raised IndexError.
Proof. vm_compute. auto. Qed.

(** * Further properties *)

(** ** What a program can access *)

Section Footprint.
Variable ok : HostOp -> bool.

Lemma performs_only_call (c : HostOp) : ok c = true -> performs_only ok (call c).
Proof. intro H. split; [exact H |]. intros [e | v]; exact I. Qed.

Lemma performs_only_bind (A B : Type) (m : Prog A) (f : A -> Prog B) :
  performs_only ok m -> (forall a, performs_only ok (f a)) -> performs_only ok (bind m f).
Proof.
  intros Hm Hf. induction m as [a | e | c k IH]; simpl.
  - apply Hf.
  - exact I.
  - destruct Hm as [Hc Hk]. split; [exact Hc |]. intro r. apply IH, Hk.
Qed.

Lemma performs_only_try_except (A : Type) (m handler : Prog A) (E : Exn) :
  performs_only ok m -> performs_only ok handler ->
  performs_only ok (try_except m E handler).
Proof.
  intros Hm Hh. induction m as [a | e | c k IH]; simpl.
  - exact I.
  - destruct (Exn_eqb e E); [exact Hh | exact I].
  - destruct Hm as [Hc Hk]. split; [exact Hc |]. intro r. apply IH, Hk.
Qed.

Lemma performs_only_attr (o : option Obj) : performs_only ok (attr o).
Proof. destruct o; exact I. Qed.

Lemma performs_only_truediv (a b : float) : performs_only ok (truediv a b).
Proof. unfold truediv. destruct (b =? 0)%float; exact I. Qed.

Lemma performs_only_getitem (s : pystr) (i : nat) : performs_only ok (getitem s i).
Proof. unfold getitem. destruct (nth_error s i); exact I. Qed.

Lemma performs_only_for_each (X : Type) (body : X -> Prog unit) (xs : list X) :
  (forall i, performs_only ok (body i)) -> performs_only ok (for_each xs body).
Proof.
  intro H. induction xs as [| i xs IH]; simpl; [exact I |].
  apply performs_only_bind; auto.
Qed.

(** On runs: everything a run appends to the trace is accepted by [ok],
    whether the run returns or raises. *)
Lemma performs_only_sound (A : Type) (p : Prog A) :
  performs_only ok p ->
  forall h tr, exists ops, snd (run h p tr) = tr ++ ops /\ forallb ok ops = true.
Proof.
  induction p as [a | e | c k IH]; intros Hp h tr; simpl.
  - exists []. now rewrite app_nil_r.
  - exists []. now rewrite app_nil_r.
  - destruct Hp as [Hc Hk].
    destruct (IH (h tr c) (Hk _) h (tr ++ [c])) as [ops [Hops Hall]].
    exists (c :: ops). rewrite Hops, <- app_assoc. simpl. now rewrite Hc, Hall.
Qed.
End Footprint.

Ltac footprint :=
  repeat match goal with
    | |- performs_only _ (Ret _) => exact I
    | |- performs_only _ (Raise _) => exact I
    | |- performs_only ?ok (call ?c) => apply (@performs_only_call ok c); reflexivity
    | |- performs_only _ (attr _) => apply performs_only_attr
    | |- performs_only _ (truediv _ _) => apply performs_only_truediv
    | |- performs_only _ (getitem _ _) => apply performs_only_getitem
    | |- performs_only _ (for_each _ _) => apply performs_only_for_each; intros ?
    | |- performs_only _ (bind _ _) => apply performs_only_bind; [ | intros ? ]
    | |- performs_only _ (try_except _ _ _) => apply performs_only_try_except
    | |- performs_only _ (if ?b then _ else _) => destruct b
    | |- performs_only _ (match ?o with Some _ => _ | None => _ end) => destruct o
    end.

(** ** What a program can raise *)

Section OwnExceptions.
Variable P : Exn -> Prop.

Lemma raises_only_call (c : HostOp) : raises_only P (call c).
Proof. split; [intro e; now left | intro v; exact I]. Qed.

Lemma raises_only_bind (A B : Type) (m : Prog A) (f : A -> Prog B) :
  raises_only P m -> (forall a, raises_only P (f a)) -> raises_only P (bind m f).
Proof.
  intros Hm Hf. induction m as [a | e | c k IH]; simpl.
  - apply Hf.
  - exact Hm.
  - destruct Hm as [He Hv]. split.
    + intro e. destruct (He e) as [Hraise | Hown].
      * left. now rewrite Hraise.
      * right. now apply IH.
    + intro v. apply IH, Hv.
Qed.

Lemma raises_only_for_each (X : Type) (body : X -> Prog unit) (xs : list X) :
  (forall i, In i xs -> raises_only P (body i)) -> raises_only P (for_each xs body).
Proof.
  induction xs as [| i xs IH]; intro H; simpl; [exact I |].
  apply raises_only_bind.
  - apply H. now left.
  - intros _. apply IH. intros j Hj. apply H. now right.
Qed.

(** On runs: the exception a run ends with satisfies [P], or the host
    raised it in the last access of the run. *)
Lemma raises_only_sound (A : Type) (p : Prog A) :
  raises_only P p ->
  forall h tr e tr', run h p tr = (Raised e, tr') ->
  P e \/ exists pre c, tr' = pre ++ [c] /\ h pre c = inl e.
Proof.
  induction p as [a | e0 | c k IH]; intros Hp h tr e tr' Hrun; simpl in Hrun.
  - discriminate Hrun.
  - injection Hrun as <- _. now left.
  - destruct Hp as [He Hv].
    destruct (h tr c) as [e1 | v] eqn:Hh.
    + destruct (He e1) as [Hraise | Hown].
      * rewrite Hraise in Hrun. simpl in Hrun. injection Hrun as <- <-.
        right. exists tr, c. auto.
      * exact (IH _ Hown h _ e tr' Hrun).
    + exact (IH _ (Hv v) h _ e tr' Hrun).
Qed.
End OwnExceptions.

Lemma raises_only_weaken (P Q : Exn -> Prop) (A : Type) (p : Prog A) :
  (forall e, P e -> Q e) -> raises_only P p -> raises_only Q p.
Proof.
  intro HPQ. induction p as [a | e | c k IH]; simpl; auto.
  intros [He Hv]. split.
  - intro e. destruct (He e); [now left | right; now apply IH].
  - intro v. now apply IH.
Qed.

Lemma raises_only_attr (P : Exn -> Prop) (o : option Obj) :
  P AttributeError -> raises_only P (attr o).
Proof. intro H. destruct o; simpl; auto. Qed.

Lemma raises_only_truediv (P : Exn -> Prop) (a b : float) :
  P ZeroDivisionError -> raises_only P (truediv a b).
Proof. intro H. unfold truediv. destruct (b =? 0)%float; simpl; auto. Qed.

Lemma raises_only_getitem (P : Exn -> Prop) (s : pystr) (i : nat) :
  P IndexError -> raises_only P (getitem s i).
Proof. intro H. unfold getitem. destruct (nth_error s i); simpl; auto. Qed.

Ltac own_exceptions :=
  repeat match goal with
    | |- raises_only _ (Ret _) => exact I
    | |- raises_only ?P (call ?c) => apply (@raises_only_call P c)
    | |- raises_only _ (attr _) => apply raises_only_attr; unfold no_object_or_zero; tauto
    | |- raises_only _ (truediv _ _) => apply raises_only_truediv; unfold no_object_or_zero; tauto
    | |- raises_only _ (bind _ _) => apply raises_only_bind; [ | intros ? ]
    | |- raises_only _ (if ?b then _ else _) => destruct b
    | |- raises_only _ (match ?o with Some _ => _ | None => _ end) => destruct o
    end.

Ltac unfold_add_on :=
  unfold Model_mesh.execute, Export_model.execute, main, mesh_by_letters, single_mesh,
    create_text_object, create_intersection_object, add_platform, clear_workspace,
    finalize_mesh, export_to_stl;
  cbv zeta.

Lemma model_execute_footprint (up : codepoint -> pystr) (self : Model_mesh.t) :
  performs_only modelling_op (Model_mesh.execute up self).
Proof. unfold_add_on. footprint. Qed.

Lemma export_execute_footprint (self : Export_model.t) :
  performs_only finishing_op (Export_model.execute self).
Proof. unfold_add_on. footprint. Qed.

(** X1. Whatever the host answers and however the run ends,
    [Model_mesh.execute] never calls the STL exporter, never sets a scale,
    never creates a DECIMATE modifier and never prints. *)
Theorem modelling_never_exports (up : codepoint -> pystr) (self : Model_mesh.t)
    (h : Host) (tr : Trace) :
  exists ops,
    snd (run h (Model_mesh.execute up self) tr) = tr ++ ops /\
    forallb modelling_op ops = true.
Proof. apply performs_only_sound, model_execute_footprint. Qed.

(** X2. Whatever the host answers and however the run ends,
    [Export_model.execute] makes only the accesses of finishing: it selects,
    reads the active object, the object named "final mesh" and its
    dimensions, creates and applies a DECIMATE modifier, prints, sets a
    scale, exports and reports.  It never adds, deletes, joins or converts
    an object and never changes mode. *)
Theorem exporting_only_finishes (self : Export_model.t) (h : Host) (tr : Trace) :
  exists ops,
    snd (run h (Export_model.execute self) tr) = tr ++ ops /\
    forallb finishing_op ops = true.
Proof. apply performs_only_sound, export_execute_footprint. Qed.

(** ** The exceptions of the add-on *)

Section AddOnExceptions.
Variable P : Exn -> Prop.
Hypothesis no_object : P AttributeError.
Hypothesis zero : P ZeroDivisionError.

Ltac own :=
  repeat match goal with
    | |- raises_only _ (Ret _) => exact I
    | |- raises_only _ (call ?c) => apply (@raises_only_call P c)
    | |- raises_only _ (attr _) => apply raises_only_attr; exact no_object
    | |- raises_only _ (truediv _ _) => apply raises_only_truediv; exact zero
    | |- raises_only _ (bind _ _) => apply raises_only_bind; [ | intros ? ]
    | |- raises_only _ (if ?b then _ else _) => destruct b
    | |- raises_only _ (match ?o with Some _ => _ | None => _ end) => destruct o
    end.

Lemma single_mesh_raises fst snd w ph font cp :
  raises_only P (single_mesh fst snd w ph font cp).
Proof. unfold_add_on. own. Qed.

Lemma finalize_mesh_raises max_size : raises_only P (finalize_mesh max_size).
Proof. unfold_add_on. own. Qed.

Lemma export_execute_raises self : raises_only P (Export_model.execute self).
Proof.
  unfold Export_model.execute, export_to_stl.
  destruct (len (Export_model.filename self) =? 0)%nat.
  - own.
  - apply raises_only_bind; [apply finalize_mesh_raises | intros _; own].
Qed.

Lemma load_font_raises path : raises_only P (load_font path).
Proof.
  unfold load_font. unfold call at 1. cbn [bind try_except]. split.
  - intro e. destruct e; cbn [bind try_except Exn_eqb]; try (now left). right. own.
  - intro f. exact I.
Qed.

Lemma main_raises_in_range fst snd by_letters w ph font :
  by_letters = false \/ (len fst <= len snd)%nat ->
  raises_only P (main fst snd by_letters w ph font).
Proof.
  intro H. unfold main, clear_workspace.
  apply raises_only_bind; [own |]. intros _.
  apply raises_only_bind; [| intros _; own].
  destruct by_letters.
  - destruct H as [H | H]; [discriminate H |].
    rewrite (mesh_by_letters_in_range fst snd w ph font H).
    apply raises_only_for_each. intros i _. apply single_mesh_raises.
  - apply single_mesh_raises.
Qed.

Lemma main_raises fst snd by_letters w ph font :
  P IndexError -> raises_only P (main fst snd by_letters w ph font).
Proof.
  intro index. unfold main, clear_workspace.
  apply raises_only_bind; [own |]. intros _.
  apply raises_only_bind; [| intros _; own].
  destruct by_letters; [| apply single_mesh_raises].
  unfold mesh_by_letters. apply raises_only_for_each. intros i _.
  apply raises_only_bind; [now apply raises_only_getitem |]. intro a.
  apply raises_only_bind; [now apply raises_only_getitem |]. intro b.
  apply single_mesh_raises.
Qed.
End AddOnExceptions.

Lemma upper_single_length (up : codepoint -> pystr) (s : pystr) :
  Forall (single_upper up) s -> len (upper up s) = len s.
Proof.
  unfold upper, len, single_upper, len.
  induction 1 as [| c s Hc _ IH]; simpl; [reflexivity |].
  now rewrite length_app, Hc, IH.
Qed.

Lemma model_execute_raises (P : Exn -> Prop) (up : codepoint -> pystr)
    (self : Model_mesh.t) :
  P AttributeError -> P ZeroDivisionError ->
  P IndexError \/
    (Forall (single_upper up) (Model_mesh.fst self) /\
     Forall (single_upper up) (Model_mesh.snd self)) ->
  raises_only P (Model_mesh.execute up self).
Proof.
  intros HA HZ H.
  destruct (rejected self) eqn:E.
  - rewrite (execute_rejected up self E).
    apply raises_only_bind; [apply raises_only_call | intros _; exact I].
  - rewrite (execute_accepted up self E).
    apply raises_only_bind; [now apply load_font_raises |]. intro font.
    apply raises_only_bind; [| intros _; exact I].
    destruct H as [HI | [Hfst Hsnd]]; [now apply main_raises |].
    apply main_raises_in_range; auto.
    apply rejected_false in E. destruct E as [E | E]; [now left | right].
    now rewrite (upper_single_length Hfst), (upper_single_length Hsnd), E.
Qed.

(** X3. An exception that ends [Export_model.execute] is AttributeError
    (there is no active object), ZeroDivisionError (a dimension of the
    final mesh is zero), or was raised by the host in the last access of
    the run. *)
Theorem export_execute_exceptions (self : Export_model.t) (h : Host)
    (tr tr' : Trace) (e : Exn) :
  run h (Export_model.execute self) tr = (Raised e, tr') ->
  e = AttributeError \/ e = ZeroDivisionError \/
  exists pre c, tr' = pre ++ [c] /\ h pre c = inl e.
Proof.
  intro H.
  destruct (@raises_only_sound no_object_or_zero _ _
              (@export_execute_raises no_object_or_zero (or_introl eq_refl)
                 (or_intror eq_refl) self) h tr e tr' H) as [[Ha | Hz] | Hhost]; auto.
Qed.

Lemma export_execute_exceptions_witness :
  ZeroDivisionError = AttributeError \/ ZeroDivisionError = ZeroDivisionError \/
  exists pre c,
    snd (run (steady_host flat) (Export_model.execute to_disk) []) = pre ++ [c] /\
    steady_host flat pre c = inl ZeroDivisionError.
Proof.
  exact (@export_execute_exceptions to_disk (steady_host flat) [] _ ZeroDivisionError
           eq_refl).
Defined.

(** X4. An exception that ends [Model_mesh.execute] is AttributeError,
    ZeroDivisionError, IndexError, or was raised by the host in the last
    access of the run.  When every character of the two words has a single
    character as its uppercase form (as all ASCII characters do), the
    add-on does not raise IndexError by itself. *)
Theorem model_execute_exceptions (up : codepoint -> pystr) (self : Model_mesh.t)
    (h : Host) (tr tr' : Trace) (e : Exn) :
  run h (Model_mesh.execute up self) tr = (Raised e, tr') ->
  (e = AttributeError \/ e = ZeroDivisionError \/ e = IndexError \/
   exists pre c, tr' = pre ++ [c] /\ h pre c = inl e)
  /\
  (Forall (single_upper up) (Model_mesh.fst self) ->
   Forall (single_upper up) (Model_mesh.snd self) ->
   e = AttributeError \/ e = ZeroDivisionError \/
   exists pre c, tr' = pre ++ [c] /\ h pre c = inl e).
Proof.
  intro H. split.
  - destruct (@raises_only_sound no_object_zero_or_index _ _
                (@model_execute_raises no_object_zero_or_index up self
                   (or_introl eq_refl) (or_intror (or_introl eq_refl))
                   (or_introl (or_intror (or_intror eq_refl)))) h tr e tr' H)
      as [[Ha | [Hz | Hi]] | Hhost]; auto.
  - intros Hfst Hsnd.
    destruct (@raises_only_sound no_object_or_zero _ _
                (@model_execute_raises no_object_or_zero up self
                   (or_introl eq_refl) (or_intror eq_refl)
                   (or_intror (conj Hfst Hsnd))) h tr e tr' H)
      as [[Ha | Hz] | Hhost]; auto.
Qed.

Lemma model_execute_exceptions_witness :
  IndexError = AttributeError \/ IndexError = ZeroDivisionError \/
  IndexError = IndexError \/
  exists pre c,
    snd (run (steady_host slab)
           (Model_mesh.execute latin1_to_upper_full sharp_s_words) []) = pre ++ [c] /\
    steady_host slab pre c = inl IndexError.
Proof.
  exact (proj1 (@model_execute_exceptions latin1_to_upper_full sharp_s_words
                  (steady_host slab) [] _ IndexError eq_refl)).
Defined.

(** ** Runs on a host that raises nothing *)

(** Answers the next host accesses of the run in the goal from the
    conditions on the host. *)
Ltac answer h Hok Hctx Hdim :=
  repeat first
    [ progress cbn [run bind call attr]
    | match goal with
      | |- context [truediv ?a ?b] => rewrite (@truediv_ne a b) by assumption
      | |- context [truediv ?a ?b] => rewrite (@truediv_zero a b) by assumption
      | |- context [h ?t (GetDimensions ?o)] => rewrite (Hdim t o)
      | |- context [h ?t ContextObject] =>
          let m := fresh "m" in let Hm := fresh "Hm" in
          destruct (Hctx t) as [m Hm]; rewrite Hm
      | |- context [h ?t ?c] =>
          let v := fresh "v" in let Hv := fresh "Hv" in
          destruct (Hok t c) as [v Hv]; rewrite Hv
      end ].

Section CalmHost.
Variable h : Host.
Variable d : Vec.t.
Hypothesis Hok : calm h.
Hypothesis Hctx : has_active_object h.
Hypothesis Hdim : dimensions_are h d.

Lemma run_create_text_object txt extrude_size name rotation_z cp ph font tr :
  exists o tr',
    run h (create_text_object txt extrude_size name rotation_z cp ph font) tr =
    (Returned o, tr').
Proof.
  unfold create_text_object. destruct font; answer h Hok Hctx Hdim;
    eexists; eexists; reflexivity.
Qed.

Lemma run_create_intersection_object fst_text tr :
  exists o tr', run h (create_intersection_object fst_text) tr = (Returned o, tr').
Proof.
  unfold create_intersection_object. answer h Hok Hctx Hdim.
  eexists; eexists; reflexivity.
Qed.

Lemma run_add_platform_returns intersect_mesh cp ph width depth is_top tr :
  nonzero depth -> nonzero width ->
  exists tr',
    run h (add_platform intersect_mesh cp ph width depth is_top) tr = (Returned tt, tr').
Proof.
  intros Hdepth Hwidth. unfold add_platform. cbv zeta.
  destruct is_top; answer h Hok Hctx Hdim;
    match goal with |- context [Returned ?v] => destruct v end;
    eexists; reflexivity.
Qed.

Lemma run_add_platform_zero intersect_mesh cp ph width depth is_top tr :
  (depth =? 0)%float = true \/ (width =? 0)%float = true ->
  exists tr',
    run h (add_platform intersect_mesh cp ph width depth is_top) tr =
    (Raised ZeroDivisionError, tr' ++ [OpsObjectModeSet EDIT]) /\
    observe platform (tr' ++ [OpsObjectModeSet EDIT]) =
    observe platform tr
    ++ [PlatformCube (if is_top then Float (1.98 + ph) else Int 0)].
Proof.
  intros Hzero. unfold add_platform. cbv zeta.
  destruct (depth =? 0)%float eqn:Hdepth.
  - destruct is_top; answer h Hok Hctx Hdim; eexists;
      (split; [reflexivity |]);
      rewrite !observe_app; simpl; now rewrite !app_nil_r.
  - destruct Hzero as [Hzero | Hwidth]; [discriminate Hzero |].
    change (nonzero depth) in Hdepth.
    destruct is_top; answer h Hok Hctx Hdim; eexists;
      (split; [reflexivity |]);
      rewrite !observe_app; simpl; now rewrite !app_nil_r.
Qed.

Lemma run_single_mesh_returns fst snd w ph font cp tr :
  nonzero (Vec.x d) -> nonzero (Vec.z d) ->
  exists tr', run h (single_mesh fst snd w ph font cp) tr = (Returned tt, tr').
Proof.
  intros Hx Hz. unfold single_mesh.
  rewrite run_bind.
  destruct (run_create_text_object fst (Z.of_nat (len snd) * 2) (py "first text")
              Zero cp ph font tr) as [o1 [t1 ->]].
  rewrite run_bind.
  destruct (run_create_text_object snd (Z.of_nat (len fst) * 2) (py "second text")
              (Radians 90) cp ph font t1) as [o2 [t2 ->]].
  rewrite run_bind.
  destruct (run_create_intersection_object o1 t2) as [o3 [t3 ->]].
  rewrite run_bind, run_call, Hdim.
  rewrite run_bind, run_call, Hdim.
  rewrite run_bind.
  destruct (run_add_platform_returns o3 cp ph false (t3 ++ [GetDimensions o3]
              ++ [GetDimensions o3]) Hx Hz) as [t4 Ht4].
  rewrite <- app_assoc, Ht4.
  destruct w.
  - apply run_add_platform_returns; assumption.
  - eexists. reflexivity.
Qed.

Lemma run_single_mesh_zero fst snd w ph font cp tr :
  (Vec.x d =? 0)%float = true \/ (Vec.z d =? 0)%float = true ->
  exists tr',
    run h (single_mesh fst snd w ph font cp) tr = (Raised ZeroDivisionError, tr').
Proof.
  intros Hzero. unfold single_mesh.
  rewrite run_bind.
  destruct (run_create_text_object fst (Z.of_nat (len snd) * 2) (py "first text")
              Zero cp ph font tr) as [o1 [t1 ->]].
  rewrite run_bind.
  destruct (run_create_text_object snd (Z.of_nat (len fst) * 2) (py "second text")
              (Radians 90) cp ph font t1) as [o2 [t2 ->]].
  rewrite run_bind.
  destruct (run_create_intersection_object o1 t2) as [o3 [t3 ->]].
  rewrite run_bind, run_call, Hdim.
  rewrite run_bind, run_call, Hdim.
  rewrite run_bind.
  destruct (run_add_platform_zero o3 cp ph false (t3 ++ [GetDimensions o3]
              ++ [GetDimensions o3]) Hzero) as [t4 [Ht4 _]].
  rewrite <- app_assoc, Ht4.
  eexists. reflexivity.
Qed.
End CalmHost.

Lemma run_for_each_returns (h : Host) (X : Type) (body : X -> Prog unit) (xs : list X) :
  (forall i tr, In i xs -> exists tr', run h (body i) tr = (Returned tt, tr')) ->
  forall tr, exists tr', run h (for_each xs body) tr = (Returned tt, tr').
Proof.
  induction xs as [| i xs IH]; intros H tr; simpl.
  - eexists. reflexivity.
  - rewrite run_bind. destruct (H i tr (or_introl eq_refl)) as [t1 ->].
    apply IH. intros j t Hj. apply H. now right.
Qed.

Section CalmMain.
Variable h : Host.
Variable d : Vec.t.
Hypothesis Hok : calm h.
Hypothesis Hctx : has_active_object h.
Hypothesis Hdim : dimensions_are h d.
Variables (fst snd : pystr) (w : bool) (ph : float) (font : option Font).

Lemma run_main_tail (tr : Trace) :
  exists tr',
    run h (call (OpsObjectSelectAll SELECT) ;;
           call OpsObjectJoin ;;
           o <- call ContextObject ;;
           o <- attr o ;;
           call (SetLocation o (Int 0, Int 0, Int 0))) tr = (Returned tt, tr').
Proof.
  answer h Hok Hctx Hdim.
  match goal with |- context [Returned ?v] => destruct v end.
  eexists. reflexivity.
Qed.

Lemma run_clear_workspace (tr : Trace) :
  run h clear_workspace tr =
  (Returned tt, (tr ++ [OpsObjectSelectAll SELECT]) ++ [OpsObjectDelete]).
Proof.
  unfold clear_workspace. answer h Hok Hctx Hdim.
  match goal with |- context [Returned ?v] => destruct v end.
  reflexivity.
Qed.

Lemma run_main_returns (by_letters : bool) (tr : Trace) :
  by_letters = false \/ (len fst <= len snd)%nat ->
  nonzero (Vec.x d) -> nonzero (Vec.z d) ->
  exists tr', run h (main fst snd by_letters w ph font) tr = (Returned tt, tr').
Proof.
  intros Hlen Hx Hz. unfold main.
  rewrite run_bind, run_clear_workspace, run_bind.
  destruct by_letters.
  - destruct Hlen as [Hlen | Hlen]; [discriminate Hlen |].
    rewrite (mesh_by_letters_in_range fst snd w ph font Hlen).
    destruct (@run_for_each_returns h nat
                (fun i => single_mesh [nth i fst 0%N] [nth i snd 0%N] w ph font
                            (Z.of_nat i * 2 - Z.of_nat (len fst) / 2 - 2)%Z)
                (range (len fst))
                (fun i t _ => run_single_mesh_returns Hok Hctx Hdim _ _ w ph font _ t Hx Hz)
                ((tr ++ [OpsObjectSelectAll SELECT]) ++ [OpsObjectDelete])) as [t1 ->].
    apply run_main_tail.
  - destruct (run_single_mesh_returns Hok Hctx Hdim fst snd w ph font 0
                ((tr ++ [OpsObjectSelectAll SELECT]) ++ [OpsObjectDelete]) Hx Hz) as [t1 ->].
    apply run_main_tail.
Qed.

Lemma run_main_zero (by_letters : bool) (tr : Trace) :
  by_letters = false \/ (fst <> [] /\ snd <> []) ->
  (Vec.x d =? 0)%float = true \/ (Vec.z d =? 0)%float = true ->
  exists tr', run h (main fst snd by_letters w ph font) tr = (Raised ZeroDivisionError, tr').
Proof.
  intros Hne Hzero. unfold main.
  rewrite run_bind, run_clear_workspace, run_bind.
  destruct by_letters.
  - destruct Hne as [Hne | [Hfst Hsnd]]; [discriminate Hne |].
    unfold mesh_by_letters, range.
    destruct fst as [| a fst']; [congruence |].
    destruct snd as [| b snd']; [congruence |].
    cbn [len List.length seq for_each getitem nth_error bind].
    rewrite run_bind.
    destruct (run_single_mesh_zero Hok Hctx Hdim [a] [b] w ph font
                (Z.of_nat 0 * 2 - Z.of_nat (S (List.length fst')) / 2 - 2)%Z
                ((tr ++ [OpsObjectSelectAll SELECT]) ++ [OpsObjectDelete]) Hzero)
      as [t1 ->].
    eexists. reflexivity.
  - destruct (run_single_mesh_zero Hok Hctx Hdim fst snd w ph font 0
                ((tr ++ [OpsObjectSelectAll SELECT]) ++ [OpsObjectDelete]) Hzero)
      as [t1 ->].
    eexists. reflexivity.
Qed.
End CalmMain.

Lemma run_load_font_calm (h : Host) (path : pystr) (tr : Trace) :
  calm h -> exists f, run h (load_font path) tr = (Returned (Some f), tr ++ [DataFontsLoad path]).
Proof.
  intro Hok. rewrite run_load_font.
  destruct (Hok tr (DataFontsLoad path)) as [f ->]. now exists f.
Qed.

(** X5. On a host that raises nothing, with an active object, an accepted
    [Model_mesh.execute] whose by-letters words keep their lengths in
    uppercase returns FINISHED when the intersection meshes have a
    non-zero depth (x) and width (z); when one of the two is zero, as for
    an empty mesh, and there is a model to build, it raises
    ZeroDivisionError. *)
Theorem model_execute_outcome (up : codepoint -> pystr) (self : Model_mesh.t)
    (h : Host) (d : Vec.t) (tr : Trace) :
  calm h -> has_active_object h -> dimensions_are h d ->
  rejected self = false ->
  (Model_mesh.by_letters self = false \/
   (Forall (single_upper up) (Model_mesh.fst self) /\
    Forall (single_upper up) (Model_mesh.snd self))) ->
  (nonzero (Vec.x d) -> nonzero (Vec.z d) ->
   fst (run h (Model_mesh.execute up self) tr) = Returned FINISHED)
  /\
  ((Vec.x d =? 0)%float = true \/ (Vec.z d =? 0)%float = true ->
   Model_mesh.by_letters self = false \/ Model_mesh.fst self <> [] ->
   fst (run h (Model_mesh.execute up self) tr) = Raised ZeroDivisionError).
Proof.
  intros Hok Hctx Hdim Hacc Hwords.
  rewrite (execute_accepted up self Hacc), run_bind.
  destruct (run_load_font_calm (Model_mesh.font_path self) tr Hok) as [f ->].
  rewrite run_then_return.
  assert (Model_mesh.by_letters self = false \/
          len (upper up (Model_mesh.fst self)) = len (upper up (Model_mesh.snd self)) /\
          len (upper up (Model_mesh.fst self)) = len (Model_mesh.fst self)) as Hlen.
  { destruct Hwords as [Hby | [Hfst Hsnd]]; [now left |].
    apply rejected_false in Hacc. destruct Hacc as [Hby | Hlen]; [now left | right].
    now rewrite (upper_single_length Hfst), (upper_single_length Hsnd). }
  split.
  - intros Hx Hz.
    destruct (@run_main_returns h d Hok Hctx Hdim
                (upper up (Model_mesh.fst self)) (upper up (Model_mesh.snd self))
                (Model_mesh.with_top_platform self) (Model_mesh.platform_height self / 10)
                (Some f) (Model_mesh.by_letters self)
                (tr ++ [DataFontsLoad (Model_mesh.font_path self)]))
      as [t1 ->]; auto.
    destruct Hlen as [Hby | [Hlen _]]; [now left | right]. rewrite Hlen. apply Nat.le_refl.
  - intros Hzero Hmodel.
    destruct (@run_main_zero h d Hok Hctx Hdim
                (upper up (Model_mesh.fst self)) (upper up (Model_mesh.snd self))
                (Model_mesh.with_top_platform self) (Model_mesh.platform_height self / 10)
                (Some f) (Model_mesh.by_letters self)
                (tr ++ [DataFontsLoad (Model_mesh.font_path self)]))
      as [t1 ->]; auto.
    destruct Hlen as [Hby | [Hlen Hfst]]; [now left |].
    destruct Hmodel as [Hby | Hne]; [now left | right].
    assert (len (upper up (Model_mesh.fst self)) <> 0%nat) as Hpos.
    { rewrite Hfst. destruct (Model_mesh.fst self); [congruence | discriminate]. }
    split; intro E; rewrite E in *; [| symmetry in Hlen]; simpl in *; congruence.
Qed.

Lemma model_execute_outcome_witness :
  fst (run (steady_host slab) (Model_mesh.execute latin1_to_upper_full two_letters) []) =
    Returned FINISHED
  /\
  fst (run (steady_host depthless) (Model_mesh.execute latin1_to_upper_full two_letters) []) =
    Raised ZeroDivisionError.
Proof.
  assert (Forall (single_upper latin1_to_upper_full) (py "ab") /\
          Forall (single_upper latin1_to_upper_full) (py "cd")) as Hwords
    by (split; repeat constructor).
  split.
  - refine (proj1 (@model_execute_outcome latin1_to_upper_full two_letters
                     (steady_host slab) slab [] (steady_host_calm slab)
                     (steady_host_active slab) (fun _ _ => eq_refl) eq_refl
                     (or_intror Hwords)) _ _); reflexivity.
  - refine (proj2 (@model_execute_outcome latin1_to_upper_full two_letters
                     (steady_host depthless) depthless [] (steady_host_calm depthless)
                     (steady_host_active depthless) (fun _ _ => eq_refl) eq_refl
                     (or_intror Hwords)) (or_introl eq_refl) (or_intror _)).
    discriminate.
Defined.

(** X6. When the depth or the width given to [add_platform] is zero, on a
    host that raises nothing and has an active object, [add_platform]
    raises ZeroDivisionError right after switching to edit mode: the
    platform cube has been added, and the union with it is never applied. *)
Theorem add_platform_zero_division (h : Host) (intersect_mesh : Obj) (cp : Z)
    (ph width depth : float) (is_top : bool) (tr : Trace) :
  calm h -> has_active_object h ->
  (depth =? 0)%float = true \/ (width =? 0)%float = true ->
  exists pre,
    run h (add_platform intersect_mesh cp ph width depth is_top) tr =
    (Raised ZeroDivisionError, pre ++ [OpsObjectModeSet EDIT]) /\
    observe platform (pre ++ [OpsObjectModeSet EDIT]) =
    observe platform tr ++ [PlatformCube (if is_top then Float (1.98 + ph) else Int 0)].
Proof.
  intros Hok Hctx Hzero. now apply run_add_platform_zero.
Qed.

Lemma add_platform_zero_division_witness :
  exists pre,
    run (steady_host slab) (add_platform 1%N 0 1 2 0 false) [] =
    (Raised ZeroDivisionError, pre ++ [OpsObjectModeSet EDIT]) /\
    observe platform (pre ++ [OpsObjectModeSet EDIT]) =
    observe platform [] ++ [PlatformCube (Int 0)].
Proof.
  exact (@add_platform_zero_division (steady_host slab) 1%N 0 1 2 0 false []
           (steady_host_calm slab) (steady_host_active slab) (or_introl eq_refl)).
Defined.

Lemma run_finalize_mesh_zero (h : Host) (tr : Trace) (max_size : float) (o : Obj) (d : Vec.t) :
  calm h -> has_active_object h -> final_mesh_is h o d ->
  (Vec.x d =? 0)%float = true \/ (Vec.y d =? 0)%float = true \/ (Vec.z d =? 0)%float = true ->
  exists pre,
    run h (finalize_mesh max_size) tr = (Raised ZeroDivisionError, pre ++ [GetDimensions o]) /\
    observe step (pre ++ [GetDimensions o]) =
    observe step tr ++ [Decimate; Apply decimate_name].
Proof.
  intros Hok Hctx [Hobj Hdim] Hzero.
  assert (exists pre,
    run h (finalize_mesh max_size) tr = (Raised ZeroDivisionError, pre ++ [GetDimensions o]) /\
    exists ops, pre ++ [GetDimensions o] = tr ++ ops /\
                observe step ops = [Decimate; Apply decimate_name]) as [pre [Hrun [ops [E Hobs]]]].
  { unfold finalize_mesh.
    destruct (Vec.x d =? 0)%float eqn:Hx;
      [| change (nonzero (Vec.x d)) in Hx;
         destruct (Vec.y d =? 0)%float eqn:Hy;
         [| change (nonzero (Vec.y d)) in Hy;
            assert ((Vec.z d =? 0)%float = true) as Hz by (destruct Hzero as [? | [? | ?]];
              [discriminate | discriminate | assumption])]];
      repeat first
        [ progress cbn [run bind call attr]
        | match goal with
          | |- context [truediv ?a ?b] => rewrite (@truediv_ne a b) by assumption
          | |- context [truediv ?a ?b] => rewrite (@truediv_zero a b) by assumption
          | |- context [h ?t (GetDimensions o)] => rewrite (Hdim t)
          | |- context [h ?t (DataObjects ?n)] => rewrite (Hobj t)
          | |- context [h ?t ContextObject] =>
              let m := fresh "m" in let Hm := fresh "Hm" in
              destruct (Hctx t) as [m Hm]; rewrite Hm
          | |- context [h ?t ?c] =>
              let v := fresh "v" in let Hv := fresh "Hv" in
              destruct (Hok t c) as [v Hv]; rewrite Hv
          end ];
      (eexists; split; [reflexivity |]);
      (eexists; split; [rewrite <- !app_assoc; reflexivity | reflexivity]). }
  exists pre. split; [exact Hrun |].
  rewrite E, observe_app, Hobs. reflexivity.
Qed.

(** X7. With a non-empty filename, on a host that raises nothing and has
    an active object, when a dimension of the object named "final mesh" is
    zero, [Export_model.execute] raises ZeroDivisionError right after
    reading the dimensions: the mesh has been decimated, no scale is set
    and nothing is exported. *)
Theorem export_zero_dimension (self : Export_model.t) (h : Host) (o : Obj) (d : Vec.t)
    (tr : Trace) :
  calm h -> has_active_object h -> final_mesh_is h o d ->
  Export_model.filename self <> [] ->
  (Vec.x d =? 0)%float = true \/ (Vec.y d =? 0)%float = true \/ (Vec.z d =? 0)%float = true ->
  exists pre,
    run h (Export_model.execute self) tr =
    (Raised ZeroDivisionError, pre ++ [GetDimensions o]) /\
    observe step (pre ++ [GetDimensions o]) =
    observe step tr ++ [Decimate; Apply decimate_name].
Proof.
  intros Hok Hctx Hfinal Hf Hzero.
  rewrite run_export_nonempty.
  2:{ intro E. apply Hf. now destruct (Export_model.filename self). }
  destruct (run_finalize_mesh_zero tr (float_of_int (Export_model.max_size self) / 100)
              Hok Hctx Hfinal Hzero) as [pre [-> Hobs]].
  now exists pre.
Qed.

Lemma export_zero_dimension_witness :
  exists pre,
    run (steady_host flat) (Export_model.execute to_disk) [] =
    (Raised ZeroDivisionError, pre ++ [GetDimensions 1%N]) /\
    observe step (pre ++ [GetDimensions 1%N]) =
    observe step [] ++ [Decimate; Apply decimate_name].
Proof.
  refine (@export_zero_dimension to_disk (steady_host flat) 1%N flat []
            (steady_host_calm flat) (steady_host_active flat)
            (steady_host_final_mesh flat) _ (or_intror (or_intror eq_refl))).
  discriminate.
Defined.

(** ** Fonts, extrusion and placement *)

Lemma concat_repeat_nil (X : Type) (n : nat) : List.concat (repeat (@nil X) n) = [].
Proof. induction n as [| n IH]; simpl; auto. Qed.

Lemma single_mesh_fonts (fst snd : pystr) (w : bool) (ph : float) (font : option Font) (cp : Z) :
  emits font_set (single_mesh fst snd w ph font cp) (fonts_of font).
Proof. unfold_single_mesh. destruct w, font; emits_straight. Qed.

Lemma single_mesh_reports (fst snd : pystr) (w : bool) (ph : float) (font : option Font) (cp : Z) :
  emits reports (single_mesh fst snd w ph font cp) [].
Proof. unfold_single_mesh. destruct w, font; emits_straight. Qed.

Lemma single_mesh_extrusion (fst snd : pystr) (w : bool) (ph : float) (font : option Font)
    (cp : Z) :
  emits extrusion (single_mesh fst snd w ph font cp)
    [(Z.of_nat (len snd) * 2)%Z; (Z.of_nat (len fst) * 2)%Z].
Proof. unfold_single_mesh. destruct w, font; emits_straight. Qed.

Lemma single_mesh_places (fst snd : pystr) (w : bool) (ph : float) (font : option Font) (cp : Z) :
  emits placement (single_mesh fst snd w ph font cp) (places w ph cp).
Proof. unfold_single_mesh. destruct w, font; emits_straight. Qed.

Lemma main_fonts (fst snd : pystr) (by_letters w : bool) (ph : float) (font : option Font) :
  emits font_set (main fst snd by_letters w ph font)
    (List.concat (repeat (fonts_of font) (models by_letters fst))).
Proof.
  pose proof (@mesh_by_letters_repeats fst snd w ph font _ font_set (fonts_of font)
                (fun a b cp => single_mesh_fonts a b w ph font cp)) as Hletters.
  pose proof (single_mesh_fonts fst snd w ph font 0) as Hwhole.
  unfold main, clear_workspace, models.
  destruct by_letters; eapply emits_eq; [emits_walk | | emits_walk |];
    try exact Hletters; try exact Hwhole; simpl; now rewrite ?app_nil_r.
Qed.

Lemma main_reports (fst snd : pystr) (by_letters w : bool) (ph : float) (font : option Font) :
  emits reports (main fst snd by_letters w ph font) [].
Proof.
  pose proof (@mesh_by_letters_repeats fst snd w ph font _ reports []
                (fun a b cp => single_mesh_reports a b w ph font cp)) as Hletters.
  pose proof (single_mesh_reports fst snd w ph font 0) as Hwhole.
  unfold main, clear_workspace.
  destruct by_letters; eapply emits_eq; [emits_walk | | emits_walk |];
    try exact Hletters; try exact Hwhole; simpl; now rewrite ?concat_repeat_nil.
Qed.

(** X8. In a run of [Model_mesh.execute] that returns FINISHED: when the
    font loads, every text object (two per model) is given the loaded font
    and nothing is reported; when loading raises [RuntimeError], no text
    object is given a font (the default stays) and the one report of the
    run is the font warning. *)
Theorem model_execute_fonts (up : codepoint -> pystr) (self : Model_mesh.t)
    (h : Host) (tr tr' : Trace) :
  run h (Model_mesh.execute up self) tr = (Returned FINISHED, tr') ->
  let n := models (Model_mesh.by_letters self) (upper up (Model_mesh.fst self)) in
  (forall f, h tr (DataFontsLoad (Model_mesh.font_path self)) = inr f ->
     observe font_set tr' = observe font_set tr ++ List.concat (repeat [f; f] n) /\
     observe reports tr' = observe reports tr)
  /\
  (h tr (DataFontsLoad (Model_mesh.font_path self)) = inl RuntimeError ->
     observe font_set tr' = observe font_set tr /\
     observe reports tr' =
       observe reports tr ++ [py "Could not load wanted font. Chose default instead."]).
Proof.
  intros H n.
  pose proof (execute_finished_accepted _ _ _ _ H) as Hacc.
  rewrite (execute_accepted up self Hacc), run_bind, run_load_font in H.
  split.
  - intros f Hf. rewrite Hf, run_then_return in H.
    destruct (run h (main _ _ _ _ _ (Some f)) _) as [[[] | e] t] eqn:E;
      [| discriminate H].
    injection H as <-.
    rewrite (main_fonts _ _ _ _ _ (Some f) _ _ E), (main_reports _ _ _ _ _ (Some f) _ _ E).
    rewrite !observe_app. simpl. now rewrite !app_nil_r.
  - intros Hf. rewrite Hf in H.
    destruct (h (tr ++ [DataFontsLoad (Model_mesh.font_path self)])
                (Report WARNING Model_mesh.font_warning)) as [e | []]; [discriminate H |].
    rewrite run_then_return in H.
    destruct (run h (main _ _ _ _ _ None) _) as [[[] | e] t] eqn:E; [| discriminate H].
    injection H as <-.
    rewrite (main_fonts _ _ _ _ _ None _ _ E), (main_reports _ _ _ _ _ None _ _ E).
    rewrite !observe_app. simpl.
    now rewrite concat_repeat_nil, !app_nil_r.
Qed.

Lemma model_execute_fonts_witness :
  observe font_set
    (snd (run (font_raises RuntimeError (steady_host slab))
            (Model_mesh.execute latin1_to_upper_full two_letters) [])) =
  observe font_set []
  /\
  observe reports
    (snd (run (font_raises RuntimeError (steady_host slab))
            (Model_mesh.execute latin1_to_upper_full two_letters) [])) =
  observe reports [] ++ [py "Could not load wanted font. Chose default instead."].
Proof.
  exact (proj2 (@model_execute_fonts latin1_to_upper_full two_letters
                  (font_raises RuntimeError (steady_host slab)) [] _ eq_refl) eq_refl).
Defined.

Lemma mesh_by_letters_extrudes (fst snd : pystr) (w : bool) (ph : float) (font : option Font) :
  emits extrusion (mesh_by_letters fst snd w ph font)
    (List.concat (repeat [2%Z; 2%Z] (len fst))).
Proof.
  unfold mesh_by_letters, range. eapply emits_eq.
  - apply emits_for_each with (ks_of := fun _ => [2%Z; 2%Z]).
    intros i _. unfold getitem.
    destruct (nth_error fst i); simpl; [| apply emits_raise].
    destruct (nth_error snd i); simpl; [| apply emits_raise].
    apply (single_mesh_extrusion [c] [c0]).
  - apply flat_map_constant.
Qed.

Lemma concat_repeat_pair (X : Type) (x : X) (n : nat) :
  List.concat (repeat [x; x] n) = repeat x (2 * n).
Proof.
  induction n as [| n IH]; simpl; [reflexivity |].
  rewrite IH. replace (n + S (n + 0))%nat with (S (n + (n + 0)))%nat by lia.
  reflexivity.
Qed.

Lemma main_extrudes (fst snd : pystr) (by_letters w : bool) (ph : float) (font : option Font) :
  emits extrusion (main fst snd by_letters w ph font)
    (if by_letters
     then repeat 2%Z (2 * len fst)
     else [(Z.of_nat (len snd) * 2)%Z; (Z.of_nat (len fst) * 2)%Z]).
Proof.
  pose proof (mesh_by_letters_extrudes fst snd w ph font) as Hletters.
  pose proof (single_mesh_extrusion fst snd w ph font 0) as Hwhole.
  unfold main, clear_workspace.
  destruct by_letters; eapply emits_eq; [emits_walk | | emits_walk |];
    try exact Hletters; try exact Hwhole; simpl; rewrite ?app_nil_r; auto.
  apply concat_repeat_pair.
Qed.

(** X9. In a run of [main] that returns, each text is extruded by twice
    the length of the other word; by letters every text is extruded by 2. *)
Theorem main_extrusion (fst snd : pystr) (by_letters w : bool) (ph : float)
    (font : option Font) (h : Host) (tr tr' : Trace) :
  run h (main fst snd by_letters w ph font) tr = (Returned tt, tr') ->
  observe extrusion tr' =
    observe extrusion tr
    ++ (if by_letters
        then repeat 2%Z (2 * len fst)
        else [(Z.of_nat (len snd) * 2)%Z; (Z.of_nat (len fst) * 2)%Z]).
Proof. intro H. exact (main_extrudes fst snd by_letters w ph font _ _ H). Qed.

Lemma main_extrusion_witness :
  observe extrusion
    (snd (run (steady_host slab) (main (py "ABC") (py "DE") false false 1 None) [])) =
  observe extrusion [] ++ [4%Z; 6%Z].
Proof.
  exact (@main_extrusion (py "ABC") (py "DE") false false 1 None (steady_host slab) [] _
           eq_refl).
Defined.

Lemma mesh_by_letters_places (fst snd : pystr) (w : bool) (ph : float) (font : option Font) :
  emits placement (mesh_by_letters fst snd w ph font)
    (flat_map (fun i => places w ph (Z.of_nat i * 2 - Z.of_nat (len fst) / 2 - 2))
       (range (len fst))).
Proof.
  unfold mesh_by_letters.
  apply emits_for_each. intros i _. unfold getitem.
  destruct (nth_error fst i); simpl; [| apply emits_raise].
  destruct (nth_error snd i); simpl; [| apply emits_raise].
  apply single_mesh_places.
Qed.

Lemma main_places (fst snd : pystr) (by_letters w : bool) (ph : float) (font : option Font) :
  emits placement (main fst snd by_letters w ph font)
    (if by_letters
     then flat_map (fun i => places w ph (Z.of_nat i * 2 - Z.of_nat (len fst) / 2 - 2))
            (range (len fst))
     else places w ph 0).
Proof.
  pose proof (mesh_by_letters_places fst snd w ph font) as Hletters.
  pose proof (single_mesh_places fst snd w ph font 0) as Hwhole.
  unfold main, clear_workspace.
  destruct by_letters; eapply emits_eq; [emits_walk | | emits_walk |];
    try exact Hletters; try exact Hwhole; simpl; now rewrite ?app_nil_r.
Qed.

(** X10. In a run of [main] that returns, the objects of one model (the
    two texts, the bottom platform, the top platform when asked) are all
    created at the same [y]: 0 for whole words and, by letters,
    [2 * i - len(fst) // 2 - 2] for the letter pair [i], so consecutive
    letter models are 2 apart.  The texts are created at height
    [platform_height - 0.02], the bottom platform at 0 and the top platform
    at [1.98 + platform_height]. *)
Theorem main_placement (fst snd : pystr) (by_letters w : bool) (ph : float)
    (font : option Font) (h : Host) (tr tr' : Trace) :
  run h (main fst snd by_letters w ph font) tr = (Returned tt, tr') ->
  let model y :=
    [(Int 0, Int y, Float (ph - 0.02)); (Int 0, Int y, Float (ph - 0.02));
     (Int 0, Int y, Int 0)]
    ++ (if w then [(Int 0, Int y, Float (1.98 + ph))] else []) in
  observe placement tr' =
    observe placement tr
    ++ (if by_letters
        then flat_map (fun i => model (Z.of_nat i * 2 - Z.of_nat (len fst) / 2 - 2)%Z)
               (range (len fst))
        else model 0%Z)
  /\ (forall i : nat,
        (Z.of_nat (S i) * 2 - Z.of_nat (len fst) / 2 - 2)
        - (Z.of_nat i * 2 - Z.of_nat (len fst) / 2 - 2) = 2)%Z.
Proof.
  intros H model. split.
  - exact (main_places fst snd by_letters w ph font _ _ H).
  - intro i. lia.
Qed.

Lemma main_placement_witness :
  observe placement
    (snd (run (steady_host slab) (main (py "AB") (py "CD") true false 1 None) [])) =
  observe placement []
  ++ flat_map (fun i =>
       [(Int 0, Int (Z.of_nat i * 2 - 2 / 2 - 2), Float (1 - 0.02));
        (Int 0, Int (Z.of_nat i * 2 - 2 / 2 - 2), Float (1 - 0.02));
        (Int 0, Int (Z.of_nat i * 2 - 2 / 2 - 2), Int 0)] ++ []) (range 2).
Proof.
  exact (proj1 (@main_placement (py "AB") (py "CD") true false 1 None
                  (steady_host slab) [] _ eq_refl)).
Defined.

(** ** The scene is cleared first *)

(** X11. Whatever the host answers, [main] starts by selecting all
    objects and, if that returns, deleting them: the previous scene is
    deleted before any modelling, also in runs where modelling then fails. *)
Theorem main_clears_first (fst snd : pystr) (by_letters w : bool) (ph : float)
    (font : option Font) (h : Host) (tr : Trace) :
  exists rest,
    Datatypes.snd (run h (main fst snd by_letters w ph font) tr) =
      tr ++ OpsObjectSelectAll SELECT :: rest /\
    (forall v, h tr (OpsObjectSelectAll SELECT) = inr v ->
       exists rest', rest = OpsObjectDelete :: rest').
Proof.
  unfold main, clear_workspace. cbn [bind call]. cbn [run].
  match goal with |- context [run h ?p (tr ++ [OpsObjectSelectAll SELECT])] =>
    destruct (run_extends h p (tr ++ [OpsObjectSelectAll SELECT])) as [rest Hrest]
  end.
  exists rest. split.
  - rewrite Hrest, <- app_assoc. reflexivity.
  - intros v Hv. rewrite Hv in Hrest. cbn [bind run call] in Hrest.
    match type of Hrest with context [run h ?p ?t] =>
      destruct (run_extends h p t) as [rest' Hrest']
    end.
    rewrite Hrest', <- app_assoc in Hrest. apply app_inv_head in Hrest.
    exists rest'. now rewrite <- Hrest.
Qed.

(** ** Words of different lengths *)

Lemma for_each_ext_in (X : Type) (f g : X -> Prog unit) (xs : list X) :
  (forall i, In i xs -> f i = g i) -> for_each xs f = for_each xs g.
Proof.
  induction xs as [| i xs IH]; intro H; simpl; [reflexivity |].
  rewrite (H i (or_introl eq_refl)), IH; [reflexivity |].
  intros j Hj. apply H. now right.
Qed.

Lemma run_for_each_app (h : Host) (X : Type) (body : X -> Prog unit) (xs ys : list X)
    (tr : Trace) :
  run h (for_each (xs ++ ys) body) tr =
  match run h (for_each xs body) tr with
  | (Returned _, t) => run h (for_each ys body) t
  | (Raised e, t) => (Raised e, t)
  end.
Proof.
  revert tr. induction xs as [| i xs IH]; intro tr; simpl; [reflexivity |].
  rewrite !run_bind. destruct (run h (body i) tr) as [[[] | e] t]; [apply IH | reflexivity].
Qed.

(** X12. When the first word is the shorter one, [mesh_by_letters]
    ignores the letters of the second word beyond the length of the first:
    it is the same program as on the second word cut to that length. *)
Theorem mesh_by_letters_ignores_tail (fst snd : pystr) (w : bool) (ph : float)
    (font : option Font) :
  (len fst <= len snd)%nat ->
  mesh_by_letters fst snd w ph font =
  mesh_by_letters fst (firstn (len fst) snd) w ph font.
Proof.
  intro Hlen.
  rewrite (mesh_by_letters_in_range fst snd w ph font Hlen).
  rewrite (mesh_by_letters_in_range fst (firstn (len fst) snd) w ph font).
  2:{ unfold len in *. rewrite length_firstn. lia. }
  apply for_each_ext_in. intros i Hi. apply in_seq in Hi.
  rewrite nth_firstn.
  destruct (i <? len fst)%nat eqn:E; [reflexivity |].
  apply Nat.ltb_ge in E. lia.
Qed.

Lemma mesh_by_letters_ignores_tail_witness :
  mesh_by_letters (py "AB") (py "CDE") false 1 None =
  mesh_by_letters (py "AB") (py "CD") false 1 None.
Proof.
  refine (@mesh_by_letters_ignores_tail (py "AB") (py "CDE") false 1 None _).
  simpl. lia.
Defined.

Lemma run_mesh_by_letters_short (fst snd : pystr) (w : bool) (ph : float)
    (font : option Font) (h : Host) (tr : Trace) :
  (len snd < len fst)%nat ->
  run h (mesh_by_letters fst snd w ph font) tr =
  match
    run h (for_each (range (len snd)) (fun i =>
             single_mesh [nth i fst 0%N] [nth i snd 0%N] w ph font
               (Z.of_nat i * 2 - Z.of_nat (len fst) / 2 - 2)%Z)) tr
  with
  | (Returned _, t) => (Raised IndexError, t)
  | (Raised e, t) => (Raised e, t)
  end.
Proof.
  intro Hlen. unfold mesh_by_letters, range.
  replace (len fst) with (len snd + S (len fst - S (len snd)))%nat at 1 by lia.
  rewrite seq_app, run_for_each_app.
  rewrite (@for_each_ext_in nat _
             (fun i => single_mesh [nth i fst 0%N] [nth i snd 0%N] w ph font
                         (Z.of_nat i * 2 - Z.of_nat (len fst) / 2 - 2)%Z)).
  - destruct (run h (for_each (seq 0 (len snd)) _) tr) as [[[] | e] t]; [| reflexivity].
    change (0 + len snd)%nat with (len snd).
    simpl seq. cbn [for_each]. rewrite !run_bind. unfold getitem.
    rewrite (nth_error_nth' fst 0%N Hlen). cbn [run].
    assert (nth_error snd (len snd) = None) as ->
      by (apply nth_error_None; unfold len; lia).
    reflexivity.
  - intros i Hi. apply in_seq in Hi. unfold getitem.
    assert (i < len fst)%nat as H1 by lia.
    assert (i < len snd)%nat as H2 by lia.
    now rewrite (nth_error_nth' fst 0%N H1), (nth_error_nth' snd 0%N H2).
Qed.

(** X13. When the second word is the shorter one, [mesh_by_letters] never
    returns: it runs [single_mesh] on the letter pairs the second word
    covers and then raises IndexError (unless one of those runs raises
    first), leaving these models in the scene. *)
Theorem mesh_by_letters_short_second (fst snd : pystr) (w : bool) (ph : float)
    (font : option Font) (h : Host) (tr : Trace) :
  (len snd < len fst)%nat ->
  run h (mesh_by_letters fst snd w ph font) tr =
  match
    run h (for_each (range (len snd)) (fun i =>
             single_mesh [nth i fst 0%N] [nth i snd 0%N] w ph font
               (Z.of_nat i * 2 - Z.of_nat (len fst) / 2 - 2)%Z)) tr
  with
  | (Returned _, t) => (Raised IndexError, t)
  | (Raised e, t) => (Raised e, t)
  end.
Proof. apply run_mesh_by_letters_short. Qed.

Lemma mesh_by_letters_short_second_witness :
  fst (run (steady_host slab) (mesh_by_letters (py "ABC") (py "DE") false 1 None) []) =
  Raised IndexError.
Proof.
  rewrite (@mesh_by_letters_short_second (py "ABC") (py "DE") false 1 None
             (steady_host slab) []).
  - reflexivity.
  - simpl. lia.
Defined.

(** * Failure recovery *)

(** ** The answer [None] to [bpy.context.object] *)

Lemma none_fatal_call (c : HostOp) : (forall v, ~ is_none c v) -> none_fatal (call c).
Proof.
  intro H. apply none_fatal_Vis.
  - intros v Hv. destruct (H v Hv).
  - intros [e | v]; constructor.
Qed.

Lemma none_fatal_bind (A B : Type) (m : Prog A) (f : A -> Prog B) :
  none_fatal m -> (forall a, none_fatal (f a)) -> none_fatal (bind m f).
Proof.
  intros Hm Hf. induction Hm as [a | e | c k Hk Hr IH]; simpl.
  - apply Hf.
  - constructor.
  - apply none_fatal_Vis; [| exact IH].
    intros v Hv. now rewrite (Hk v Hv).
Qed.

(** Reading an attribute of [bpy.context.object]. *)
Lemma none_fatal_context (B : Type) (f : Obj -> Prog B) :
  (forall o, none_fatal (f o)) ->
  none_fatal (x <- call ContextObject ;; o <- attr x ;; f o).
Proof.
  intro Hf. cbn [call bind]. apply none_fatal_Vis.
  - intros v Hv. simpl in Hv. subst v. reflexivity.
  - intros [e | [o |]]; cbn [bind attr]; [constructor | apply Hf | constructor].
Qed.

Lemma none_fatal_attr (o : option Obj) : none_fatal (attr o).
Proof. destruct o; constructor. Qed.

Lemma none_fatal_truediv (a b : float) : none_fatal (truediv a b).
Proof. unfold truediv. destruct (b =? 0)%float; constructor. Qed.

Lemma none_fatal_getitem (s : pystr) (i : nat) : none_fatal (getitem s i).
Proof. unfold getitem. destruct (nth_error s i); constructor. Qed.

Lemma none_fatal_for_each (X : Type) (body : X -> Prog unit) (xs : list X) :
  (forall i, none_fatal (body i)) -> none_fatal (for_each xs body).
Proof.
  intro H. induction xs as [| i xs IH]; simpl; [constructor |].
  apply none_fatal_bind; auto.
Qed.

(** On runs: an access to [bpy.context.object] answered by [None] is the
    last access of the run, and the run ends with AttributeError. *)
Lemma none_fatal_sound (A : Type) (p : Prog A) :
  none_fatal p ->
  forall h tr r tr', run h p tr = (r, tr') ->
  forall pre post,
    tr' = pre ++ ContextObject :: post -> (List.length tr <= List.length pre)%nat ->
    h pre ContextObject = inr None ->
    post = [] /\ r = Raised AttributeError.
Proof.
  induction 1 as [a | e0 | c0 k Hk Hr IH]; intros h tr r tr' Hrun pre post Htr Hlen Hh.
  - simpl in Hrun. injection Hrun as _ <-. subst tr.
    rewrite length_app in Hlen. simpl in Hlen. lia.
  - simpl in Hrun. injection Hrun as _ <-. subst tr.
    rewrite length_app in Hlen. simpl in Hlen. lia.
  - simpl in Hrun.
    destruct (Nat.eq_dec (List.length tr) (List.length pre)) as [Heq | Hne].
    + destruct (run_extends h (k (h tr c0)) (tr ++ [c0])) as [ops Hops].
      rewrite Hrun in Hops. simpl in Hops. rewrite <- app_assoc in Hops. simpl in Hops.
      rewrite Htr in Hops. symmetry in Hops.
      destruct (app_same_length _ _ _ _ Hops Heq) as [-> Hcons].
      injection Hcons as -> ->.
      assert (k (h pre ContextObject) = Raise AttributeError) as Hnone
        by (rewrite Hh; exact (Hk None eq_refl)).
      rewrite Hnone in Hrun. simpl in Hrun.
      injection Hrun as <- Htr'.
      rewrite Htr in Htr'. apply app_inv_head in Htr'.
      injection Htr' as <-. auto.
    + apply (IH (h tr c0) h (tr ++ [c0]) r tr' Hrun pre post); auto.
      rewrite length_app. simpl. lia.
Qed.

Ltac fatal :=
  repeat match goal with
    | |- none_fatal (Ret _) => constructor
    | |- none_fatal (Raise _) => constructor
    | |- none_fatal (bind (call ContextObject) _) => apply none_fatal_context; intros ?
    | |- none_fatal (call ?c) => apply (@none_fatal_call c); intros ? []
    | |- none_fatal (attr _) => apply none_fatal_attr
    | |- none_fatal (truediv _ _) => apply none_fatal_truediv
    | |- none_fatal (getitem _ _) => apply none_fatal_getitem
    | |- none_fatal (for_each _ _) => apply none_fatal_for_each; intros ?
    | |- none_fatal (bind _ _) => apply none_fatal_bind; [ | intros ? ]
    | |- none_fatal (if ?b then _ else _) => destruct b
    | |- none_fatal (match ?o with Some _ => _ | None => _ end) => destruct o
    end.

Lemma load_font_none_fatal (path : pystr) : none_fatal (load_font path).
Proof.
  unfold load_font. unfold call at 1. cbn [bind try_except].
  apply none_fatal_Vis.
  - intros v [].
  - intros [e | f]; cbn [bind try_except]; [| constructor].
    destruct (Exn_eqb e RuntimeError); fatal.
Qed.

Lemma model_execute_none_fatal (up : codepoint -> pystr) (self : Model_mesh.t) :
  none_fatal (Model_mesh.execute up self).
Proof.
  destruct (rejected self) eqn:E.
  - rewrite (execute_rejected up self E). fatal.
  - rewrite (execute_accepted up self E).
    apply none_fatal_bind; [apply load_font_none_fatal |]. intro font.
    unfold_add_on. fatal.
Qed.

Lemma export_execute_none_fatal (self : Export_model.t) :
  none_fatal (Export_model.execute self).
Proof. unfold_add_on. fatal. Qed.

(** ** Exceptions of the add-on on a host that raises nothing *)

Section CalmFailures.
Variable h : Host.
Variable d : Vec.t.
Hypothesis Hok : calm h.
Hypothesis Hctx : has_active_object h.
Variable up : codepoint -> pystr.
Variable self : Model_mesh.t.

Lemma run_main_short (fst snd : pystr) (w : bool) (ph : float) (font : option Font)
    (tr : Trace) :
  dimensions_are h d -> nonzero (Vec.x d) -> nonzero (Vec.z d) ->
  (len snd < len fst)%nat ->
  exists tr', run h (main fst snd true w ph font) tr = (Raised IndexError, tr').
Proof.
  intros Hdim Hx Hz Hlen. unfold main.
  rewrite run_bind, (run_clear_workspace Hok), run_bind.
  rewrite (run_mesh_by_letters_short fst snd w ph font h _ Hlen).
  destruct (@run_for_each_returns h nat
              (fun i => single_mesh [nth i fst 0%N] [nth i snd 0%N] w ph font
                          (Z.of_nat i * 2 - Z.of_nat (len fst) / 2 - 2)%Z)
              (range (len snd))
              (fun i t _ => run_single_mesh_returns Hok Hctx Hdim _ _ w ph font _ t Hx Hz)
              ((tr ++ [OpsObjectSelectAll SELECT]) ++ [OpsObjectDelete])) as [t1 ->].
  eexists. reflexivity.
Qed.

Lemma run_execute_zero (tr : Trace) :
  dimensions_are h d -> rejected self = false ->
  (Vec.x d =? 0)%float = true \/ (Vec.z d =? 0)%float = true ->
  Model_mesh.by_letters self = false \/
    (upper up (Model_mesh.fst self) <> [] /\ upper up (Model_mesh.snd self) <> []) ->
  fst (run h (Model_mesh.execute up self) tr) = Raised ZeroDivisionError.
Proof.
  intros Hdim Hacc Hzero Hmodel.
  rewrite (execute_accepted up self Hacc), run_bind.
  destruct (run_load_font_calm (Model_mesh.font_path self) tr Hok) as [f ->].
  rewrite run_then_return.
  destruct (@run_main_zero h d Hok Hctx Hdim
              (upper up (Model_mesh.fst self)) (upper up (Model_mesh.snd self))
              (Model_mesh.with_top_platform self) (Model_mesh.platform_height self / 10)
              (Some f) (Model_mesh.by_letters self)
              (tr ++ [DataFontsLoad (Model_mesh.font_path self)]) Hmodel Hzero)
    as [t1 ->].
  reflexivity.
Qed.

Lemma run_execute_short (tr : Trace) :
  dimensions_are h d -> rejected self = false ->
  nonzero (Vec.x d) -> nonzero (Vec.z d) ->
  Model_mesh.by_letters self = true ->
  (len (upper up (Model_mesh.snd self)) < len (upper up (Model_mesh.fst self)))%nat ->
  fst (run h (Model_mesh.execute up self) tr) = Raised IndexError.
Proof.
  intros Hdim Hacc Hx Hz Hby Hlen.
  rewrite (execute_accepted up self Hacc), run_bind.
  destruct (run_load_font_calm (Model_mesh.font_path self) tr Hok) as [f ->].
  rewrite run_then_return, Hby.
  destruct (@run_main_short
              (upper up (Model_mesh.fst self)) (upper up (Model_mesh.snd self))
              (Model_mesh.with_top_platform self)
              (Model_mesh.platform_height self / 10) (Some f)
              (tr ++ [DataFontsLoad (Model_mesh.font_path self)]) Hdim Hx Hz Hlen)
    as [t1 ->].
  reflexivity.
Qed.

Lemma run_export_zero (ex : Export_model.t) (o : Obj) (tr : Trace) :
  final_mesh_is h o d -> Export_model.filename ex <> [] ->
  (Vec.x d =? 0)%float = true \/ (Vec.y d =? 0)%float = true \/ (Vec.z d =? 0)%float = true ->
  fst (run h (Export_model.execute ex) tr) = Raised ZeroDivisionError.
Proof.
  intros Hfinal Hf Hzero.
  rewrite run_export_nonempty.
  2:{ intro E. apply Hf. now destruct (Export_model.filename ex). }
  destruct (run_finalize_mesh_zero tr (float_of_int (Export_model.max_size ex) / 100)
              Hok Hctx Hfinal Hzero) as [pre [-> _]].
  reflexivity.
Qed.
End CalmFailures.

(** ** The one handler *)

(** C6, as stated, fails: the host raises [RuntimeError] while loading the
    font, and [Model_mesh.execute] goes on and returns FINISHED. *)
Lemma font_error_is_handled :
  let h := font_raises RuntimeError (steady_host slab) in
  h [] (DataFontsLoad (Model_mesh.font_path whole_words)) = inl RuntimeError /\
  fst (run h (Model_mesh.execute latin1_to_upper_full whole_words) []) = Returned FINISHED /\
  ~ uncaught never (Model_mesh.execute latin1_to_upper_full whole_words).
Proof.
  intro h. split; [reflexivity |]. split; [vm_compute; reflexivity |].
  intro Hun.
  destruct (run h (Model_mesh.execute latin1_to_upper_full whole_words) [])
    as [r tr'] eqn:Hrun.
  pose proof (run_extends h (Model_mesh.execute latin1_to_upper_full whole_words) [])
    as [ops Hops].
  rewrite Hrun in Hops. simpl in Hops. subst tr'.
  assert (exists post, ops = DataFontsLoad (Model_mesh.font_path whole_words) :: post)
    as [post ->].
  { apply (f_equal snd) in Hrun. simpl in Hrun. rewrite <- Hrun.
    eexists. vm_compute. reflexivity. }
  destruct (uncaught_sound Hun h [] Hrun [] (DataFontsLoad _) post (e := RuntimeError)
              eq_refl (le_n 0) eq_refl eq_refl) as [_ Hr].
  apply (f_equal fst) in Hrun. simpl in Hrun. rewrite Hr in Hrun.
  vm_compute in Hrun. discriminate Hrun.
Qed.

(** C6, amended. [RuntimeError] raised by [bpy.data.fonts.load] is the
    only exception the add-on handles: the font warning is reported and
    [main] runs with [None] for the font.  Every other failure ends the
    operator with the exception raised: any other exception of the font
    load; an exception raised by any other host access, which is then the
    last access of the run; AttributeError when [bpy.context.object] is
    [None], that access being the last; and, on a host that raises
    nothing, ZeroDivisionError when a dimension divided by is zero and
    IndexError when, by letters, the second word in uppercase is shorter
    than the first. *)
Theorem only_font_errors_are_handled (up : codepoint -> pystr)
    (self : Model_mesh.t) (ex : Export_model.t) (h : Host) (tr : Trace) :
  let path := Model_mesh.font_path self in
  let font_warning := py "Could not load wanted font. Chose default instead." in
  let loaded := tr ++ [DataFontsLoad path] in
  let warned := loaded ++ [Report WARNING font_warning] in
  let upper_fst := upper up (Model_mesh.fst self) in
  let upper_snd := upper up (Model_mesh.snd self) in
  let main_with font :=
    main upper_fst upper_snd (Model_mesh.by_letters self)
      (Model_mesh.with_top_platform self) (Model_mesh.platform_height self / 10)%float
      font in
  (rejected self = false ->
   run h (Model_mesh.execute up self) tr =
   match h tr (DataFontsLoad path) with
   | inr f => and_return FINISHED (run h (main_with (Some f)) loaded)
   | inl RuntimeError =>
       match h loaded (Report WARNING font_warning) with
       | inr _ => and_return FINISHED (run h (main_with None) warned)
       | inl e => (Raised e, warned)
       end
   | inl e => (Raised e, loaded)
   end)
  /\
  (forall r tr' pre c post e,
     run h (Model_mesh.execute up self) tr = (r, tr') ->
     tr' = pre ++ c :: post -> (List.length tr <= List.length pre)%nat ->
     h pre c = inl e -> font_fallback c e = false ->
     post = [] /\ r = Raised e)
  /\
  (forall r tr' pre c post e,
     run h (Export_model.execute ex) tr = (r, tr') ->
     tr' = pre ++ c :: post -> (List.length tr <= List.length pre)%nat ->
     h pre c = inl e ->
     post = [] /\ r = Raised e)
  /\
  (forall r tr' pre post,
     run h (Model_mesh.execute up self) tr = (r, tr') \/
     run h (Export_model.execute ex) tr = (r, tr') ->
     tr' = pre ++ ContextObject :: post -> (List.length tr <= List.length pre)%nat ->
     h pre ContextObject = inr None ->
     post = [] /\ r = Raised AttributeError)
  /\
  (calm h -> has_active_object h ->
   forall d,
     (dimensions_are h d -> rejected self = false ->
      ((Vec.x d =? 0)%float = true \/ (Vec.z d =? 0)%float = true ->
       Model_mesh.by_letters self = false \/ (upper_fst <> [] /\ upper_snd <> []) ->
       fst (run h (Model_mesh.execute up self) tr) = Raised ZeroDivisionError)
      /\
      (nonzero (Vec.x d) -> nonzero (Vec.z d) ->
       Model_mesh.by_letters self = true -> (len upper_snd < len upper_fst)%nat ->
       fst (run h (Model_mesh.execute up self) tr) = Raised IndexError))
     /\
     (forall o,
        final_mesh_is h o d -> Export_model.filename ex <> [] ->
        (Vec.x d =? 0)%float = true \/ (Vec.y d =? 0)%float = true \/
        (Vec.z d =? 0)%float = true ->
        fst (run h (Export_model.execute ex) tr) = Raised ZeroDivisionError)).
Proof.
  intros path font_warning loaded warned upper_fst upper_snd main_with.
  split; [| split; [| split; [| split]]].
  - intro Hacc.
    rewrite (execute_accepted up self Hacc), run_bind, run_load_font.
    fold path loaded. change Model_mesh.font_warning with font_warning. fold warned.
    destruct (h tr (DataFontsLoad path)) as [[] | f]; try reflexivity.
    + destruct (h loaded (Report WARNING font_warning)); [reflexivity |].
      apply run_then_return.
    + apply run_then_return.
  - intros r tr' pre c post e Hrun Htr Hlen Hh Hc.
    exact (uncaught_sound (model_execute_uncaught up self) h tr Hrun
             pre c post Htr Hlen Hh Hc).
  - intros r tr' pre c post e Hrun Htr Hlen Hh.
    exact (uncaught_sound (export_execute_uncaught ex) h tr Hrun
             pre c post Htr Hlen Hh eq_refl).
  - intros r tr' pre post [Hrun | Hrun] Htr Hlen Hh.
    + exact (none_fatal_sound (model_execute_none_fatal up self) h tr Hrun
               pre post Htr Hlen Hh).
    + exact (none_fatal_sound (export_execute_none_fatal ex) h tr Hrun
               pre post Htr Hlen Hh).
  - intros Hok Hctx d. split.
    + intros Hdim Hacc. split.
      * intros Hzero Hmodel. now apply (run_execute_zero (d := d)).
      * intros Hx Hz Hby Hlen. now apply (run_execute_short (d := d)).
    + intros o Hfinal Hf Hzero. now apply (run_export_zero (d := d) Hok Hctx ex (o := o)).
Qed.

Lemma only_font_errors_are_handled_witness :
  (run (font_raises RuntimeError (steady_host slab))
     (Model_mesh.execute latin1_to_upper_full whole_words) [] =
   and_return FINISHED
     (run (font_raises RuntimeError (steady_host slab))
        (main (py "AB") (py "CD") false true (1 / 10) None)
        [DataFontsLoad (py "C:\font.ttf");
         Report WARNING (py "Could not load wanted font. Chose default instead.")]))
  /\
  (@nil HostOp = [] /\
   fst (run (font_raises KeyError (steady_host slab))
          (Model_mesh.execute latin1_to_upper_full whole_words) []) = Raised KeyError)
  /\
  (@nil HostOp = [] /\
   fst (run (without_active_object (steady_host slab)) (Export_model.execute to_disk) []) =
     Raised AttributeError)
  /\
  fst (run (steady_host depthless) (Model_mesh.execute latin1_to_upper_full whole_words) []) =
    Raised ZeroDivisionError
  /\
  fst (run (steady_host slab) (Model_mesh.execute latin1_to_upper_full sharp_s_words) []) =
    Raised IndexError.
Proof.
  split; [| split; [| split; [| split]]].
  - exact (proj1 (only_font_errors_are_handled latin1_to_upper_full whole_words to_disk
                    (font_raises RuntimeError (steady_host slab)) []) eq_refl).
  - exact (proj1 (proj2 (only_font_errors_are_handled latin1_to_upper_full whole_words to_disk
                           (font_raises KeyError (steady_host slab)) []))
             _ _ [] (DataFontsLoad (py "C:\font.ttf")) [] KeyError
             eq_refl eq_refl (le_n 0) eq_refl eq_refl).
  - exact (proj1 (proj2 (proj2 (proj2
             (only_font_errors_are_handled latin1_to_upper_full whole_words to_disk
                (without_active_object (steady_host slab)) []))))
             _ _ [OpsObjectSelectAll SELECT] [] (or_intror eq_refl) eq_refl
             (le_0_n 1) eq_refl).
  - refine (proj1 (proj1 (proj2 (proj2 (proj2 (proj2
              (only_font_errors_are_handled latin1_to_upper_full whole_words to_disk
                 (steady_host depthless) [])))) (steady_host_calm depthless)
              (steady_host_active depthless) depthless) (fun _ _ => eq_refl) eq_refl)
              (or_introl eq_refl) (or_introl eq_refl)).
  - refine (proj2 (proj1 (proj2 (proj2 (proj2 (proj2
              (only_font_errors_are_handled latin1_to_upper_full sharp_s_words to_disk
                 (steady_host slab) [])))) (steady_host_calm slab)
              (steady_host_active slab) slab) (fun _ _ => eq_refl) eq_refl)
              eq_refl eq_refl eq_refl _).
    vm_compute. lia.
Defined.
